(** * A refrigerator inventory: ledger, action log and shopping list

    Shallow embedding of [hui.cpp]: the classes [Product] and
    [Refrigerator] and the command loop of [main].

    - [double] is IEEE 754 binary64: Rocq's primitive [float], with the
      comparisons [<=?], [<?], [=?] and the operations [+], [-] of
      [PrimFloat], which are those of the C++ operators.
    - [std::string] is [string]; [size_t] positions are [Z] modulo [2^64]
      with [npos = 2^64 - 1].
    - [unordered_map<string, T>] is [gmap string T]; its iteration order,
      unspecified in C++, is that of [map_to_list].
    - every method takes the refrigerator and returns the refrigerator it
      leaves together with the lines it wrote to [cout]. *)

From Stdlib Require Import ZArith Zpower Lia Bool String Ascii List Floats.
From Stdlib Require Import DecimalString DecimalN DecimalPos.
From stdpp Require Import gmap strings list fin_maps.

#[local] Set Warnings "-inexact-float".
Local Open Scope Z_scope.

(** ** Strings *)

Module Str.

(** [size_t] on a 64-bit target. *)
Definition size_max : Z := 2 ^ 64.
Definition npos : Z := size_max - 1.
Definition wrap (z : Z) : Z := z mod size_max.

Definition size (s : string) : Z := Z.of_nat (String.length s).

(** [s.find(pat)]: the first position at which [pat] occurs, or [npos]. *)
Definition find (s pat : string) : Z :=
  match String.index 0 pat s with
  | Some i => Z.of_nat i
  | None => npos
  end.

(** [s.substr(pos, count)]: throws [std::out_of_range] when [pos > size()],
    and stops at the end of the string. *)
Definition substr (s : string) (pos count : Z) : option string :=
  if size s <? pos then None
  else Some (String.substring (Z.to_nat pos) (Z.to_nat (Z.min count (size s - pos))) s).

(** [a >= b] for [std::string]: lexicographic on unsigned bytes, a proper
    prefix being smaller. *)
Definition ge (a b : string) : bool := negb (String.ltb a b).

End Str.

(** ** [std::to_string(double)]: the [printf] format [%f] *)

Module Fmt.

(** Round [num / den] to the nearest integer, ties to even ([0 < den]). *)
Definition round_half_even (num den : Z) : Z :=
  let q := num / den in
  match 2 * (num mod den) ?= den with
  | Lt => q
  | Gt => q + 1
  | Eq => if Z.even q then q else q + 1
  end.

(** The value [m * 2^e] in millionths, rounded. *)
Definition millionths (m : positive) (e : Z) : Z :=
  if 0 <=? e then Z.pos m * 2 ^ e * 1000000
  else round_half_even (Z.pos m * 1000000) (2 ^ (- e)).

Definition digit (d : Z) : ascii := ascii_of_nat (48 + Z.to_nat (d mod 10)).

Definition decimal (n : Z) : string :=
  NilZero.string_of_uint (N.to_uint (Z.to_N n)).

Definition six_digits (f : Z) : string :=
  String (digit (f / 100000)) (String (digit (f / 10000)) (String (digit (f / 1000))
    (String (digit (f / 100)) (String (digit (f / 10)) (String (digit f) EmptyString))))).

Definition fixed6 (n : Z) : string :=
  decimal (n / 1000000) +:+ "." +:+ six_digits (n mod 1000000).

Definition minus (s : bool) : string := if s then "-" else "".

(** The sign of a NaN is not part of [float]: it is written without one. *)
Definition to_string (x : float) : string :=
  match Prim2SF x with
  | S754_nan => "nan"
  | S754_infinity s => minus s +:+ "inf"
  | S754_zero s => minus s +:+ "0.000000"
  | S754_finite s m e => minus s +:+ fixed6 (millionths m e)
  end.

End Fmt.

(** ** [std::stod]: [strtod] in the C locale, with the exceptions of [stod] *)

Module Stod.

Inductive exn := invalid_argument | out_of_range.

Definition code (c : ascii) : Z := Z.of_N (N_of_ascii c).

Definition isspace (c : ascii) : bool :=
  (code c =? 32) || ((9 <=? code c) && (code c <=? 13)).

Definition lower (c : ascii) : Z :=
  if (65 <=? code c) && (code c <=? 90) then code c + 32 else code c.

Definition digit_of (c : ascii) : option Z :=
  if (48 <=? code c) && (code c <=? 57) then Some (code c - 48) else None.

Definition hexdigit_of (c : ascii) : option Z :=
  match digit_of c with
  | Some d => Some d
  | None => if (97 <=? lower c) && (lower c <=? 102) then Some (lower c - 87) else None
  end.

Fixpoint skip_space (s : string) : string :=
  match s with
  | String c s' => if isspace c then skip_space s' else s
  | EmptyString => s
  end.

(** Does [s] start with the lower-case word [w], whatever the case of [s]? *)
Fixpoint starts_with (w s : string) : bool :=
  match w, s with
  | EmptyString, _ => true
  | String a w', String c s' => (code a =? lower c) && starts_with w' s'
  | String _ _, EmptyString => false
  end.

(** Reads the longest run of digits in base [base]: the number read so far,
    how many digits were read, and what follows. *)
Fixpoint digits (dig : ascii -> option Z) (base : Z) (s : string) (acc n : Z) : Z * Z * string :=
  match s with
  | String c s' =>
      match dig c with
      | Some d => digits dig base s' (base * acc + d) (n + 1)
      | None => (acc, n, s)
      end
  | EmptyString => (acc, n, s)
  end.

Definition sign (s : string) : bool * string :=
  match s with
  | String "-" s' => (true, s')
  | String "+" s' => (false, s')
  | _ => (false, s)
  end.

(** The exponent part, [mark] being [e] or [p]: absent unless a digit follows. *)
Definition exponent (mark : Z) (s : string) : Z :=
  match s with
  | String c s' =>
      if lower c =? mark then
        let '(neg, s'') := sign s' in
        let '(x, n, _) := digits digit_of 10 s'' 0 0 in
        if n =? 0 then 0 else if neg then - x else x
      else 0
  | EmptyString => 0
  end.

(** [digits [. digits]]: the digits read as one integer, how many there
    are, how many follow the point, and the rest. *)
Definition mantissa (dig : ascii -> option Z) (base : Z) (s : string) : Z * Z * Z * string :=
  let '(i, n, rest) := digits dig base s 0 0 in
  match rest with
  | String "." rest' =>
      let '(m, k, rest'') := digits dig base rest' i 0 in
      if n + k =? 0 then (i, 0, 0, rest) else (m, n + k, k, rest'')
  | _ => (i, n, 0, rest)
  end.

(** The double nearest to [num / den] (ties to even), [0 <= num], [0 < den].
    [strtod] reports [ERANGE], and [stod] throws, when the value rounds to
    an infinity or is tiny (below [2^-1022]) and inexact. *)
Definition nearest (neg : bool) (num den : Z) : exn + float :=
  if num =? 0 then inr (SF2Prim (S754_zero neg))
  else if (2 ^ 1024 - 2 ^ 970) * den <=? num then inl out_of_range
  else
    let q := num * 2 ^ 1074 / den in
    let r := (num * 2 ^ 1074) mod den in
    let loc := if r =? 0 then loc_Exact else loc_Inexact (2 * r ?= den) in
    if (q <? 2 ^ 52) && negb (r =? 0) then inl out_of_range
    else inr (SF2Prim (binary_round_aux prec emax neg q (-1074) loc)).

(** [m * base^(-k) * radix^x] as a fraction. *)
Definition scaled (neg : bool) (m : Z) (base k radix x : Z) : exn + float :=
  if 0 <=? x then nearest neg (m * radix ^ x) (base ^ k)
  else nearest neg m (base ^ k * radix ^ (- x)).

Definition hexadecimal (neg : bool) (s : string) : option (exn + float) :=
  match s with
  | String "0" (String x s') =>
      if lower x =? 120 then
        let '(m, n, k, rest) := mantissa hexdigit_of 16 s' in
        if n =? 0 then None else Some (scaled neg m 16 k 2 (exponent 112 rest))
      else None
  | _ => None
  end.

Definition stod (str : string) : exn + float :=
  let '(neg, s) := sign (skip_space str) in
  if starts_with "inf" s then inr (if neg then neg_infinity else infinity)
  else if starts_with "nan" s then inr nan
  else
    match hexadecimal neg s with
    | Some r => r
    | None =>
        let '(m, n, k, rest) := mantissa digit_of 10 s in
        if n =? 0 then inl invalid_argument
        else scaled neg m 10 k 10 (exponent 101 rest)
    end.

End Stod.

(** [std::isfinite]: neither an infinity nor a NaN. *)
Definition isfinite (x : float) : bool :=
  match Prim2SF x with
  | S754_zero _ | S754_finite _ _ _ => true
  | _ => false
  end.

(** ** The class [Product] *)

Record Product := mkProduct {
  name : string;
  quantity : float;
  expirationDate : string
}.

Definition getName (p : Product) : string := name p.
Definition getQuantity (p : Product) : float := quantity p.
Definition getExpirationDate (p : Product) : string := expirationDate p.

Definition addQuantity (additionalQuantity : float) (p : Product) : Product :=
  {| name := name p; quantity := (quantity p + additionalQuantity)%float;
     expirationDate := expirationDate p |}.

Definition consumeQuantity (consumedQuantity : float) (p : Product) : Product :=
  {| name := name p; quantity := (quantity p - consumedQuantity)%float;
     expirationDate := expirationDate p |}.

(** ** The class [Refrigerator] *)

Record Refrigerator := mkRefrigerator {
  products : gmap string Product;
  history : list string
}.

(** A freshly constructed refrigerator. *)
Definition fridge : Refrigerator := {| products := ∅; history := [] |}.

(** What a method writes to [cout], one value per line. A [double] sent to
    [cout] is kept as the number, not as the text [operator<<] makes of it. *)
Inductive line :=
| Text (s : string)
| StatusLine (n : string) (q : float) (d : string)   (* - n: q (Expires: d) *)
| HistoryLine (entry : string)                       (* - entry *)
| ExpiredLine (n : string)                           (* Product n has expired. Please remove it. *)
| BuyMore (n : string) (q : float).                  (* - Buy more n (q) *)

Definition nl : string := String (ascii_of_nat 10) EmptyString.

Definition logAction (action : string) (fr : Refrigerator) : Refrigerator :=
  {| products := products fr; history := history fr ++ [action] |}.

Definition isExpired (currentDate expirationDate : string) : bool :=
  Str.ge currentDate expirationDate.

Definition quantity_error : line := Text "Error: Product quantity must be greater than zero.".
Definition consumed_error : line := Text "Error: Consumed quantity must be greater than zero.".
Definition not_found : line := Text "Product not found in refrigerator.".
Definition not_enough : line := Text "Not enough quantity to consume.".

Definition inserted (q : float) (n : string) : string :=
  "Inserted " +:+ Fmt.to_string q +:+ " of " +:+ n.

Definition consumed (q : float) (n : string) : string :=
  "Consumed " +:+ Fmt.to_string q +:+ " of " +:+ n.

Definition insertProduct (productName : string) (productQuantity : float)
    (productExpirationDate : string) (fr : Refrigerator) : Refrigerator * list line :=
  if (productQuantity <=? 0)%float then (fr, [quantity_error])
  else
    let products' :=
      match products fr !! productName with
      | Some p => <[productName := addQuantity productQuantity p]> (products fr)
      | None =>
          let newProduct := mkProduct productName productQuantity productExpirationDate in
          <[productName := newProduct]> (products fr)
      end in
    (logAction (inserted productQuantity productName)
       {| products := products'; history := history fr |}, []).

Definition consumeProduct (productName : string) (productQuantity : float)
    (fr : Refrigerator) : Refrigerator * list line :=
  if (productQuantity <=? 0)%float then (fr, [consumed_error])
  else
    match products fr !! productName with
    | None => (fr, [not_found])
    | Some p =>
        if (getQuantity p <? productQuantity)%float then (fr, [not_enough])
        else
          let p' := consumeQuantity productQuantity p in
          let fr' := logAction (consumed productQuantity productName)
                       {| products := <[productName := p']> (products fr);
                          history := history fr |} in
          if (getQuantity p' =? 0)%float
          then ({| products := delete productName (products fr'); history := history fr' |}, [])
          else (fr', [])
    end.

Definition showStatus (fr : Refrigerator) : Refrigerator * list line :=
  let header := Text (nl +:+ "--- Current Refrigerator Status ---") in
  if decide (products fr = ∅) then (fr, [header; Text "The refrigerator is empty."])
  else
    (fr, header :: map (fun item : string * Product =>
                          StatusLine (getName item.2) (getQuantity item.2) (getExpirationDate item.2))
                       (map_to_list (products fr))).

Definition showHistory (fr : Refrigerator) : Refrigerator * list line :=
  let header := Text (nl +:+ "--- History of Actions ---") in
  if decide (history fr = []) then (fr, [header; Text "No actions recorded yet."])
  else (fr, header :: map HistoryLine (history fr)).

(** The loop of [checkExpirations]: the items still to visit, and the map,
    the lines written and the flag [expiredFound] so far. *)
Fixpoint sweep (currentDate : string) (items : list (string * Product))
    (acc : gmap string Product * list line * bool) : gmap string Product * list line * bool :=
  match items with
  | [] => acc
  | it :: items' =>
      let '(m, out, expiredFound) := acc in
      if isExpired currentDate (getExpirationDate it.2)
      then sweep currentDate items' (delete it.1 m, out ++ [ExpiredLine (getName it.2)], true)
      else sweep currentDate items' acc
  end.

Definition checkExpirations (currentDate : string) (fr : Refrigerator) : Refrigerator * list line :=
  let header := Text (nl +:+ "--- Checking Expired Products ---") in
  let '(m, out, expiredFound) :=
    sweep currentDate (map_to_list (products fr)) (products fr, [header], false) in
  ({| products := m; history := history fr |},
   if expiredFound then out else out ++ [Text "No expired products found."]).

(** One turn of the loop of [generateShoppingList] over [entry]. *)
Definition tally (consumptionMap : gmap string float) (entry : string)
    : Stod.exn + gmap string float :=
  if Str.find entry "Consumed" =? Str.npos then inr consumptionMap
  else
    let quantityStart := Str.wrap (Str.find entry " " + 1) in
    let quantityEnd := Str.find entry " of " in
    match Str.substr entry quantityStart (Str.wrap (quantityEnd - quantityStart)) with
    | None => inl Stod.out_of_range
    | Some text =>
        match Stod.stod text with
        | inl e => inl e
        | inr consumedQuantity =>
            match Str.substr entry (Str.wrap (quantityEnd + 4)) Str.npos with
            | None => inl Stod.out_of_range
            | Some productName =>
                inr (<[productName :=
                         (default 0%float (consumptionMap !! productName) + consumedQuantity)%float]>
                       consumptionMap)
            end
        end
    end.

Fixpoint scan (entries : list string) (consumptionMap : gmap string float)
    : Stod.exn + gmap string float :=
  match entries with
  | [] => inr consumptionMap
  | entry :: entries' =>
      match tally consumptionMap entry with
      | inl e => inl e
      | inr m => scan entries' m
      end
  end.

(** An exception of [stod] or [substr] is not caught: it leaves the method,
    and [main], before anything is written. *)
Definition generateShoppingList (fr : Refrigerator) : Refrigerator * (Stod.exn + list line) :=
  match scan (history fr) ∅ with
  | inl e => (fr, inl e)
  | inr consumptionMap =>
      let header := Text (nl +:+ "--- Generated Shopping List ---") in
      if decide (consumptionMap = ∅) then (fr, inr [header; Text "No items to suggest for shopping."])
      else (fr, inr (header :: map (fun item : string * float => BuyMore item.1 item.2)
                                   (map_to_list consumptionMap)))
  end.

(** ** The command loop of [main] *)

Inductive command :=
| Insert (productName : string) (productQuantity : float) (expirationDate : string)
| Consume (productName : string) (productQuantity : float)
| Status
| History
| CheckExpired (currentDate : string)
| ShoppingList.

Definition dispatch (c : command) (fr : Refrigerator) : Refrigerator * (Stod.exn + list line) :=
  match c with
  | Insert n q d => let '(fr', out) := insertProduct n q d fr in (fr', inr out)
  | Consume n q => let '(fr', out) := consumeProduct n q fr in (fr', inr out)
  | Status => let '(fr', out) := showStatus fr in (fr', inr out)
  | History => let '(fr', out) := showHistory fr in (fr', inr out)
  | CheckExpired d => let '(fr', out) := checkExpirations d fr in (fr', inr out)
  | ShoppingList => generateShoppingList fr
  end.

(** The refrigerator after the commands [cs], as long as none throws. *)
Fixpoint run (cs : list command) (fr : Refrigerator) : Stod.exn + Refrigerator :=
  match cs with
  | [] => inr fr
  | c :: cs' =>
      match dispatch c fr with
      | (_, inl e) => inl e
      | (fr', inr _) => run cs' fr'
      end
  end.

(** ** Vocabulary of the specification *)

(** The failing operations: an insert or a consume of a quantity [<= 0], a
    consume of a name the ledger does not hold, a consume of more than the
    ledger holds. *)
Inductive fails : command -> Refrigerator -> Prop :=
| insert_not_positive n q d fr :
    (q <=? 0)%float = true -> fails (Insert n q d) fr
| consume_not_positive n q fr :
    (q <=? 0)%float = true -> fails (Consume n q) fr
| consume_absent n q fr :
    products fr !! n = None -> fails (Consume n q) fr
| consume_too_much n q p fr :
    products fr !! n = Some p -> (quantity p <? q)%float = true -> fails (Consume n q) fr.

(** The successful operations: an insert or a consume that passes every
    check of the method. *)
Definition succeeds (c : command) (fr : Refrigerator) : bool :=
  match c with
  | Insert _ q _ => negb (q <=? 0)%float
  | Consume n q =>
      negb (q <=? 0)%float &&
      match products fr !! n with
      | Some p => negb (quantity p <? q)%float
      | None => false
      end
  | _ => false
  end.

(** The record an insert or a consume leaves in the action log. *)
Definition record (c : command) : list string :=
  match c with
  | Insert n q _ => [inserted q n]
  | Consume n q => [consumed q n]
  | _ => []
  end.

(** The quantity a command carries, if it carries one, is a finite number. *)
Definition finite_quantity (c : command) : bool :=
  match c with
  | Insert _ q _ | Consume _ q => isfinite q
  | _ => true
  end.

(** Every stored quantity is [> 0]. *)
Definition all_positive (fr : Refrigerator) : Prop :=
  forall k p, products fr !! k = Some p -> (0 <? quantity p)%float = true.

(** ** Vocabulary of the shopping list *)

(** Every character of [s] satisfies [P]. *)
Fixpoint every (P : ascii -> bool) (s : string) : bool :=
  match s with
  | EmptyString => true
  | String c s' => P c && every P s'
  end.

(** The characters of a number in fixed notation: digits and the point. *)
Definition numeral (c : ascii) : bool := (46 <=? Stod.code c) && (Stod.code c <=? 57).

(** The value of a decimal number read after [acc]. *)
Fixpoint uint_value (u : Decimal.uint) (acc : Z) : Z :=
  match u with
  | Decimal.Nil => acc
  | Decimal.D0 u' => uint_value u' (10 * acc + 0)
  | Decimal.D1 u' => uint_value u' (10 * acc + 1)
  | Decimal.D2 u' => uint_value u' (10 * acc + 2)
  | Decimal.D3 u' => uint_value u' (10 * acc + 3)
  | Decimal.D4 u' => uint_value u' (10 * acc + 4)
  | Decimal.D5 u' => uint_value u' (10 * acc + 5)
  | Decimal.D6 u' => uint_value u' (10 * acc + 6)
  | Decimal.D7 u' => uint_value u' (10 * acc + 7)
  | Decimal.D8 u' => uint_value u' (10 * acc + 8)
  | Decimal.D9 u' => uint_value u' (10 * acc + 9)
  end.

(** The largest value that does not round to an infinity. *)
Definition overflow_threshold : Z := 2 ^ 1024 - 2 ^ 970.

(** What [stod] reads back from the text [to_string] wrote. *)
Definition read_back (q : float) : float :=
  match Stod.stod (Fmt.to_string q) with
  | inr r => r
  | inl _ => q
  end.

(** Neither a space, nor [C], nor [o]. *)
Definition quiet (c : ascii) : bool :=
  negb (Stod.code c =? 32) && negb (Stod.code c =? 67) && negb (Stod.code c =? 111).

(** The inserts and consumes among [cs] that succeed, when [cs] runs from
    [fr], in their order. *)
Fixpoint successes (cs : list command) (fr : Refrigerator) : list command :=
  match cs with
  | [] => []
  | c :: cs' => (if succeeds c fr then [c] else []) ++ successes cs' (dispatch c fr).1
  end.

(** The quantities of the consumes of the name [n] among [cs]. *)
Definition consumed_of (n : string) (cs : list command) : list float :=
  flat_map (fun c => match c with
                     | Consume n' q => if decide (n' = n) then [q] else []
                     | _ => []
                     end) cs.

(** The name an insert gives does not contain the text [Consumed]. *)
Definition plain (c : command) : Prop :=
  match c with
  | Insert n _ _ => String.index 0 "Consumed" n = None
  | _ => True
  end.

(** The totals by name of the consumes among [cs], each quantity as [stod]
    reads it back, added from the left to the totals [m]. *)
Definition totals (cs : list command) (m : gmap string float) : gmap string float :=
  fold_left (fun m c => match c with
                        | Consume n q =>
                            <[n := (default 0%float (m !! n) + read_back q)%float]> m
                        | _ => m
                        end) cs m.

(** The command is an insert or a consume of a quantity that is not [<= 0]. *)
Definition accepted_quantity (c : command) : Prop :=
  match c with
  | Insert _ q _ | Consume _ q => (q <=? 0)%float = false
  | _ => False
  end.

(** ** Vocabulary of the further properties *)

(** Every item is stored under its own name. *)
Definition keyed_by_name (fr : Refrigerator) : Prop :=
  forall k p, products fr !! k = Some p -> getName p = k.

(** The items of the ledger that are expired at [currentDate], in the order
    [checkExpirations] visits them. *)
Definition expired_items (currentDate : string) (fr : Refrigerator) : list (string * Product) :=
  List.filter (fun item : string * Product => isExpired currentDate (getExpirationDate item.2))
    (map_to_list (products fr)).

(** The value of the double is a whole number of millionths: its text with
    six decimals is exact. *)
Definition whole_millionths (x : float) : bool :=
  match Prim2SF x with
  | S754_zero _ => true
  | S754_finite _ m e => (0 <=? e) || ((Z.pos m * 1000000) mod 2 ^ (- e) =? 0)
  | _ => false
  end.

(** The name and the quantity [generateShoppingList] takes from the record
    of a command: those of every consume, and those of an insert whose name
    contains the text [Consumed]. *)
Definition parsed (c : command) : option (string * float) :=
  match c with
  | Consume n q => Some (n, q)
  | Insert n q _ =>
      match String.index 0 "Consumed" n with
      | Some _ => Some (n, q)
      | None => None
      end
  | _ => None
  end.


(** The map [generateShoppingList] builds from the records of [cs]. *)
Definition totals_parsed (cs : list command) (m : gmap string float) : gmap string float :=
  fold_left (fun m c => match parsed c with
                        | Some (n, q) =>
                            <[n := (default 0%float (m !! n) + read_back q)%float]> m
                        | None => m
                        end) cs m.


(** * Properties *)

(** ** The models of [to_string] and [stod] on known values *)

Example to_string_4 : Fmt.to_string 4 = "4.000000"%string.
Proof. vm_compute. reflexivity. Qed.

Example to_string_tenth : Fmt.to_string 0.1 = "0.100000"%string.
Proof. vm_compute. reflexivity. Qed.

Example to_string_round : Fmt.to_string 0.1234567 = "0.123457"%string.
Proof. vm_compute. reflexivity. Qed.

Example to_string_tie : Fmt.to_string 0.0000005 = "0.000000"%string /\ Fmt.to_string 0.0000015 = "0.000002"%string /\ Fmt.to_string 2.5 = "2.500000"%string.
Proof. vm_compute. auto. Qed.

Example to_string_big : Fmt.to_string 1e22 = "10000000000000000000000.000000"%string.
Proof. vm_compute. reflexivity. Qed.

Example to_string_neg : Fmt.to_string (-1.5) = "-1.500000"%string.
Proof. vm_compute. reflexivity. Qed.

Example stod_4 : Stod.stod "4.000000" = inr 4%float.
Proof. vm_compute. reflexivity. Qed.

Example stod_forms :
  Stod.stod "0.100000" = inr 0x1.999999999999ap-4%float /\
  Stod.stod "  -2.5e-3xyz" = inr (-0x1.47ae147ae147bp-9)%float /\
  Stod.stod ".5" = inr 0x1p-1%float /\
  Stod.stod "1e22" = inr 0x1.0f0cf064dd592p+73%float /\
  Stod.stod "0x1.8p3" = inr 12%float /\
  Stod.stod "0x" = inr 0%float /\
  Stod.stod "1e" = inr 1%float /\
  Stod.stod "INFinity" = inr infinity /\
  Stod.stod "-nan" = inr nan /\
  Stod.stod "9007199254740993" = inr 0x1p+53%float /\
  Stod.stod "1.7976931348623157e308" = inr 0x1.fffffffffffffp+1023%float.
Proof. vm_compute. repeat split. Qed.

Example stod_throws :
  Stod.stod "Consumed" = inl Stod.invalid_argument /\
  Stod.stod "" = inl Stod.invalid_argument /\
  Stod.stod "-.e5" = inl Stod.invalid_argument /\
  Stod.stod "1e999" = inl Stod.out_of_range /\
  Stod.stod "1e-999" = inl Stod.out_of_range /\
  Stod.stod "4.9406564584124654e-324" = inl Stod.out_of_range.
Proof. vm_compute. repeat split. Qed.

Example scenario_milk :
  (fst (insertProduct "milk" 3 "2025-05-10" (fst (insertProduct "milk" 2 "2025-05-01" fridge)))).(products) !! "milk"%string
  = Some (mkProduct "milk" 5 "2025-05-01").
Proof. vm_compute. reflexivity. Qed.

Example scenario_juice :
  snd (generateShoppingList (fst (consumeProduct "juice" 2 (fst (insertProduct "juice" 4 "2025-03-01" fridge)))))
  = inr [Text (nl +:+ "--- Generated Shopping List ---"); BuyMore "juice" 2].
Proof. vm_compute. reflexivity. Qed.

(** ** Facts on [double] *)

Module Double.

Abbreviation emin := (SpecFloat.emin prec emax).

Lemma SFcompare_antisym (x y : spec_float) :
  SFcompare y x = option_map CompOpp (SFcompare x y).
Proof.
  destruct x as [[]|[]| |[] mx ex], y as [[]|[]| |[] my ey]; simpl; try reflexivity.
  all: rewrite (Z.compare_antisym ey ex); destruct (ey ?= ex)%Z; simpl; try reflexivity.
  all: change (PosDef.Pos.compare_cont Eq my mx) with (Pos.compare_cont Eq my mx).
  all: change (PosDef.Pos.compare_cont Eq mx my) with (Pos.compare_cont Eq mx my).
  all: rewrite (Pos.compare_cont_antisym mx my Eq); simpl; now rewrite ?CompOpp_involutive.
Qed.

Lemma leb_ltb_false (x y : float) : (x <=? y)%float = true -> (y <? x)%float = false.
Proof.
  rewrite FloatAxioms.leb_spec, FloatAxioms.ltb_spec. unfold SFleb, SFltb.
  rewrite (SFcompare_antisym (Prim2SF x) (Prim2SF y)).
  destruct (SFcompare (Prim2SF x) (Prim2SF y)) as [[]|]; simpl; congruence.
Qed.

Lemma ltb_leb_false (x y : float) : (x <? y)%float = true -> (y <=? x)%float = false.
Proof.
  rewrite FloatAxioms.leb_spec, FloatAxioms.ltb_spec. unfold SFleb, SFltb.
  rewrite (SFcompare_antisym (Prim2SF x) (Prim2SF y)).
  destruct (SFcompare (Prim2SF x) (Prim2SF y)) as [[]|]; simpl; congruence.
Qed.

Lemma sub_diag (x : float) : isfinite x = true -> (x - x =? 0)%float = true.
Proof.
  unfold isfinite. intros H. rewrite FloatAxioms.eqb_spec, FloatAxioms.sub_spec.
  destruct (Prim2SF x) as [[]| | |s m e]; try discriminate; try reflexivity.
  unfold SF64sub, SFsub. rewrite Z.min_id. unfold shl_align.
  rewrite !Z.sub_diag. reflexivity.
Qed.

(** A number that is not [<= 0] is [> 0]; a NaN is neither. *)
Lemma not_leb_ltb (x : float) :
  is_nan x = false -> (x <=? 0)%float = false -> (0 <? x)%float = true.
Proof.
  unfold is_nan. rewrite FloatAxioms.eqb_spec, FloatAxioms.leb_spec, FloatAxioms.ltb_spec.
  unfold SFeqb, SFleb, SFltb. rewrite (SFcompare_antisym (Prim2SF x) (Prim2SF 0)).
  change (Prim2SF 0) with (S754_zero false).
  destruct (Prim2SF x) as [[]|[]| |[] m e]; simpl; congruence.
Qed.

(** *** Rounding keeps a positive result positive *)

Lemma digits2_pos_bounds (m : positive) :
  2 ^ (Z.pos (digits2_pos m) - 1) <= Z.pos m < 2 ^ Z.pos (digits2_pos m).
Proof.
  induction m as [m IH|m IH|]; cbn [digits2_pos].
  - rewrite Pos2Z.inj_succ, Z.pow_succ_r by lia.
    replace (Z.succ (Z.pos (digits2_pos m)) - 1) with (Z.succ (Z.pos (digits2_pos m) - 1)) by lia.
    rewrite Z.pow_succ_r by lia. lia.
  - rewrite Pos2Z.inj_succ, Z.pow_succ_r by lia.
    replace (Z.succ (Z.pos (digits2_pos m)) - 1) with (Z.succ (Z.pos (digits2_pos m) - 1)) by lia.
    rewrite Z.pow_succ_r by lia. lia.
  - simpl. lia.
Qed.

Lemma shr_1_digits (s : shr_record) :
  Zdigits2 (shr_m (shr_1 s)) = Z.max 0 (Zdigits2 (shr_m s) - 1).
Proof.
  destruct s as [[|[p|p|]|[p|p|]] r t]; cbn [shr_1 shr_m Zdigits2 digits2_pos]; lia.
Qed.

Lemma shr_1_nonneg (s : shr_record) : 0 <= shr_m s -> 0 <= shr_m (shr_1 s).
Proof.
  destruct s as [[|[p|p|]|[p|p|]] r t]; cbn [shr_1 shr_m]; lia.
Qed.

Lemma iter_shr_1_digits (p : positive) : forall s,
  Zdigits2 (shr_m (SpecFloat.iter_pos shr_1 p s)) = Z.max 0 (Zdigits2 (shr_m s) - Z.pos p).
Proof.
  induction p as [p IH|p IH|]; intros s; cbn [SpecFloat.iter_pos].
  - rewrite !IH, shr_1_digits. lia.
  - rewrite !IH. lia.
  - apply shr_1_digits.
Qed.

Lemma iter_shr_1_nonneg (p : positive) : forall s,
  0 <= shr_m s -> 0 <= shr_m (SpecFloat.iter_pos shr_1 p s).
Proof.
  induction p as [p IH|p IH|]; intros s H; cbn [SpecFloat.iter_pos].
  - now apply IH, IH, shr_1_nonneg.
  - now apply IH, IH.
  - now apply shr_1_nonneg.
Qed.

Lemma shr_m_of_loc (m : Z) (l : location) : shr_m (shr_record_of_loc m l) = m.
Proof. now destruct l as [|[]]. Qed.

Lemma Zdigits2_pos (m : Z) : 0 < m -> 0 < Zdigits2 m.
Proof. destruct m; simpl; lia. Qed.

Lemma Zdigits2_zero (m : Z) : Zdigits2 m = 0 -> m = 0.
Proof. destruct m; simpl; lia. Qed.

(** Truncating a positive mantissa to the precision of the format leaves a
    positive mantissa. *)
Lemma shr_fexp_positive (m e : Z) (l : location) :
  0 < m -> emin <= e ->
  0 < shr_m (fst (shr_fexp prec emax m e l)) /\ emin <= snd (shr_fexp prec emax m e l).
Proof.
  intros Hm He. unfold shr_fexp, shr, fexp.
  pose proof (Zdigits2_pos m Hm) as Hd.
  destruct (Z.max (Zdigits2 m + e - prec) emin - e) as [|p|p] eqn:En; cbn [fst snd].
  - rewrite shr_m_of_loc. lia.
  - split; [|lia].
    pose proof (iter_shr_1_digits p (shr_record_of_loc m l)) as Hdig.
    pose proof (iter_shr_1_nonneg p (shr_record_of_loc m l)) as Hnn.
    rewrite shr_m_of_loc in Hdig, Hnn.
    destruct (Z.eq_dec (shr_m (SpecFloat.iter_pos shr_1 p (shr_record_of_loc m l))) 0) as [E|E].
    + rewrite E in Hdig. simpl in Hdig. unfold prec in *. lia.
    + lia.
  - rewrite shr_m_of_loc. lia.
Qed.

Lemma round_nearest_even_ge (m : Z) (l : location) : m <= round_nearest_even m l.
Proof. destruct l as [|[]]; simpl; try destruct (Z.even m); lia. Qed.

Lemma binary_round_aux_positive (m e : Z) (l : location) :
  0 < m -> emin <= e ->
  SFltb (S754_zero false) (binary_round_aux prec emax false m e l) = true.
Proof.
  intros Hm He. unfold binary_round_aux.
  destruct (shr_fexp_positive m e l Hm He) as [H1 H2].
  destruct (shr_fexp prec emax m e l) as [mrs' e']. cbn [fst snd] in H1, H2.
  pose proof (round_nearest_even_ge (shr_m mrs') (loc_of_shr_record mrs')) as Hr.
  destruct (shr_fexp_positive (round_nearest_even (shr_m mrs') (loc_of_shr_record mrs')) e' loc_Exact)
    as [H3 H4]; [lia|lia|].
  destruct (shr_fexp prec emax _ e' loc_Exact) as [mrs'' e'']. cbn [fst snd] in H3, H4.
  destruct (shr_m mrs'') as [|p|p]; try lia.
  now destruct (e'' <=? emax - prec).
Qed.

Lemma binary_round_positive (m : positive) (e : Z) :
  emin <= e -> SFltb (S754_zero false) (binary_round prec emax false m e) = true.
Proof.
  intros He. unfold binary_round, shl_align.
  destruct (fexp prec emax (Z.pos (digits2_pos m) + e) - e) eqn:En;
    apply binary_round_aux_positive; try lia.
  unfold fexp. lia.
Qed.

Lemma valid_finite (s : bool) (m : positive) (e : Z) :
  valid_binary (S754_finite s m e) = true ->
  emin <= e /\ Z.pos (digits2_pos m) <= prec /\ (emin < e -> Z.pos (digits2_pos m) = prec).
Proof.
  unfold SpecFloat.valid_binary, bounded, canonical_mantissa, fexp.
  intros H. apply andb_prop in H as [H _]. apply Z.eqb_eq in H. lia.
Qed.

Lemma shl_align_value (m : positive) (e e' : Z) :
  e' <= e -> Z.pos (fst (shl_align m e e')) = Z.pos m * 2 ^ (e - e').
Proof.
  intros H. unfold shl_align. destruct (e' - e) as [|d|d] eqn:E; cbn [fst]; try lia.
  - replace (e - e') with 0 by lia. now rewrite Z.mul_1_r.
  - replace (e - e') with (Z.pos d) by lia.
    change (Pos.iter xO m d) with (shift_pos d m).
    rewrite shift_pos_correct. change (Z.pow_pos 2 d) with (2 ^ Z.pos d). lia.
Qed.


(** Between two positive doubles, the order of the values is the order of
    the mantissas once both are written with the smaller exponent. *)
Lemma aligned_le (mr : positive) (er : Z) (mx : positive) (ex : Z) :
  valid_binary (S754_finite false mr er) = true ->
  valid_binary (S754_finite false mx ex) = true ->
  SFleb (S754_finite false mr er) (S754_finite false mx ex) = true ->
  Z.pos (fst (shl_align mr er (Z.min ex er))) <= Z.pos (fst (shl_align mx ex (Z.min ex er))).
Proof.
  intros Vr Vx. apply valid_finite in Vr as (Hr1 & Hr2 & Hr3), Vx as (Hx1 & Hx2 & Hx3).
  unfold SFleb, SFcompare. rewrite !shl_align_value by lia.
  destruct (Z.compare_spec er ex) as [E|E|E]; intros H.
  - subst ex. rewrite Z.min_id, Z.sub_diag, !Z.mul_1_r.
    change (PosDef.Pos.compare_cont Eq mr mx) with (Pos.compare mr mx) in H.
    destruct (Pos.compare_spec mr mx); try discriminate; lia.
  - rewrite Z.min_r, Z.sub_diag, Z.mul_1_r by lia.
    pose proof (digits2_pos_bounds mr) as Br. pose proof (digits2_pos_bounds mx) as Bx.
    rewrite Hx3 in Bx by lia.
    assert (2 ^ Z.pos (digits2_pos mr) <= 2 ^ prec) by (apply Z.pow_le_mono_r; lia).
    assert (2 ^ 1 <= 2 ^ (ex - er)) by (apply Z.pow_le_mono_r; lia).
    replace (2 ^ prec) with (2 ^ (prec - 1) * 2 ^ 1) in * by reflexivity.
    nia.
  - discriminate.
Qed.

Lemma positive_cases (x : float) :
  (0 <? x)%float = true ->
  Prim2SF x = S754_infinity false \/ exists m e, Prim2SF x = S754_finite false m e.
Proof.
  rewrite FloatAxioms.ltb_spec. change (Prim2SF 0) with (S754_zero false).
  destruct (Prim2SF x) as [[]|[]| |[] m e]; simpl; try discriminate; eauto.
Qed.

(** The sum of two doubles [> 0] is [> 0] (possibly [infinity]). *)
Lemma add_positive (x y : float) :
  (0 <? x)%float = true -> (0 <? y)%float = true -> (0 <? x + y)%float = true.
Proof.
  intros Hx Hy. pose proof (Prim2SF_valid x) as Vx. pose proof (Prim2SF_valid y) as Vy.
  rewrite FloatAxioms.ltb_spec, FloatAxioms.add_spec. change (Prim2SF 0) with (S754_zero false).
  destruct (positive_cases x Hx) as [Ex|(mx & ex & Ex)],
           (positive_cases y Hy) as [Ey|(my & ey & Ey)]; rewrite Ex, Ey in *; try reflexivity.
  apply valid_finite in Vx as (Hx1 & _), Vy as (Hy1 & _).
  unfold SF64add, SFadd, cond_Zopp. cbn [Z.add binary_normalize].
  apply binary_round_positive. lia.
Qed.

(** Taking a finite [r > 0] from [x >= r] leaves exactly zero or a double
    [> 0]. *)
Lemma sub_zero_or_positive (x r : float) :
  (0 <? r)%float = true -> isfinite r = true -> (r <=? x)%float = true ->
  (x - r =? 0)%float = true \/ (0 <? x - r)%float = true.
Proof.
  intros Hr Hfin Hle. pose proof (Prim2SF_valid x) as Vx. pose proof (Prim2SF_valid r) as Vr.
  rewrite FloatAxioms.ltb_spec, FloatAxioms.eqb_spec, FloatAxioms.sub_spec.
  rewrite FloatAxioms.leb_spec in Hle. unfold isfinite in Hfin.
  change (Prim2SF 0) with (S754_zero false).
  destruct (positive_cases r Hr) as [Er|(mr & er & Er)]; rewrite Er in *; [discriminate|].
  destruct (Prim2SF x) as [[]|[]| |[] mx ex]; try discriminate; [now right|].
  pose proof (aligned_le mr er mx ex Vr Vx Hle) as Hal.
  unfold SF64sub, SFsub, cond_Zopp.
  destruct (Z.pos (fst (shl_align mx ex (Z.min ex er))) - Z.pos (fst (shl_align mr er (Z.min ex er))))
    as [|d|d] eqn:Ed; try lia.
  - now left.
  - right. cbn [binary_normalize]. apply binary_round_positive.
    apply valid_finite in Vx as (Hx1 & _), Vr as (Hr1 & _). lia.
Qed.

(** Of two numbers, the one that is not smaller is at least as large. *)
Lemma not_ltb_leb (x r : float) :
  is_nan x = false -> is_nan r = false -> (x <? r)%float = false -> (r <=? x)%float = true.
Proof.
  unfold is_nan. rewrite !FloatAxioms.eqb_spec, FloatAxioms.leb_spec, FloatAxioms.ltb_spec.
  unfold SFeqb, SFleb, SFltb. rewrite (SFcompare_antisym (Prim2SF x) (Prim2SF r)).
  destruct (Prim2SF x) as [[]|[]| |[] mx ex], (Prim2SF r) as [[]|[]| |[] mr er]; simpl; try congruence.
  all: destruct (ex ?= er); simpl; try congruence.
  all: destruct (PosDef.Pos.compare_cont Eq mx mr); simpl; congruence.
Qed.

Lemma positive_not_nan (x : float) : (0 <? x)%float = true -> is_nan x = false.
Proof.
  intros H. unfold is_nan. rewrite FloatAxioms.eqb_spec. unfold SFeqb.
  destruct (positive_cases x H) as [E|(m & e & E)]; rewrite E; simpl; [reflexivity|].
  rewrite Z.compare_refl.
  change (PosDef.Pos.compare_cont Eq m m) with (Pos.compare m m). now rewrite Pos.compare_refl.
Qed.

Lemma finite_not_nan (x : float) : isfinite x = true -> is_nan x = false.
Proof.
  unfold isfinite, is_nan. rewrite FloatAxioms.eqb_spec. unfold SFeqb.
  destruct (Prim2SF x) as [[]|[]| |[] m e]; simpl; try discriminate; try reflexivity.
  all: rewrite Z.compare_refl.
  all: change (PosDef.Pos.compare_cont Eq m m) with (Pos.compare m m).
  all: now rewrite Pos.compare_refl.
Qed.

End Double.

(** ** Failures are no-ops *)

(** C1: every failing operation (an insert or a consume of a quantity
    [<= 0], a consume of an absent name, a consume of more than the stored
    quantity) leaves the ledger and the action log as they were: the
    refrigerator after the operation is the refrigerator before it. *)
Theorem failing_operation_changes_nothing (c : command) (fr : Refrigerator) :
  fails c fr -> (dispatch c fr).1 = fr.
Proof.
  destruct 1 as [n q d fr Hq|n q fr Hq|n q fr Hn|n q p fr Hn Hq]; simpl.
  - unfold insertProduct. now rewrite Hq.
  - unfold consumeProduct. now rewrite Hq.
  - unfold consumeProduct. rewrite Hn. now destruct (q <=? 0)%float.
  - unfold consumeProduct, getQuantity. rewrite Hn, Hq. now destruct (q <=? 0)%float.
Qed.

Lemma failing_operation_changes_nothing_witness :
  (dispatch (Consume "bread" 1) fridge).1 = fridge.
Proof.
  apply (failing_operation_changes_nothing (Consume "bread" 1) fridge).
  apply consume_absent. reflexivity.
Defined.

(** ** The action log *)

Lemma history_insertProduct n q d fr :
  history (insertProduct n q d fr).1 =
  history fr ++ (if succeeds (Insert n q d) fr then [inserted q n] else []).
Proof.
  unfold insertProduct. simpl. destruct (q <=? 0)%float; simpl.
  - now rewrite app_nil_r.
  - reflexivity.
Qed.

Lemma history_consumeProduct n q fr :
  history (consumeProduct n q fr).1 =
  history fr ++ (if succeeds (Consume n q) fr then [consumed q n] else []).
Proof.
  unfold consumeProduct, getQuantity. simpl.
  destruct (q <=? 0)%float; simpl; [now rewrite app_nil_r|].
  destruct (products fr !! n) as [p|]; simpl; [|now rewrite app_nil_r].
  destruct (quantity p <? q)%float; simpl; [now rewrite app_nil_r|].
  now destruct (quantity p - q =? 0)%float.
Qed.

Lemma history_checkExpirations d fr :
  history (checkExpirations d fr).1 = history fr.
Proof.
  unfold checkExpirations.
  now destruct (sweep d (map_to_list (products fr)) _) as [[m out] found].
Qed.

Lemma generateShoppingList_state fr : (generateShoppingList fr).1 = fr.
Proof.
  unfold generateShoppingList. destruct (scan (history fr) ∅) as [e|m]; [done|].
  now destruct (decide (m = ∅)).
Qed.

Lemma showStatus_state fr : (showStatus fr).1 = fr.
Proof. unfold showStatus. now destruct (decide (products fr = ∅)). Qed.

Lemma showHistory_state fr : (showHistory fr).1 = fr.
Proof. unfold showHistory. now destruct (decide (history fr = [])). Qed.

(** The state [dispatch] leaves is the state the method leaves. *)
Lemma dispatch_state (c : command) (fr : Refrigerator) :
  (dispatch c fr).1 =
  match c with
  | Insert n q d => (insertProduct n q d fr).1
  | Consume n q => (consumeProduct n q fr).1
  | Status => (showStatus fr).1
  | History => (showHistory fr).1
  | CheckExpired d => (checkExpirations d fr).1
  | ShoppingList => (generateShoppingList fr).1
  end.
Proof.
  destruct c as [n q d|n q| | |d|]; unfold dispatch.
  - now destruct (insertProduct n q d fr).
  - now destruct (consumeProduct n q fr).
  - now destruct (showStatus fr).
  - now destruct (showHistory fr).
  - now destruct (checkExpirations d fr).
  - reflexivity.
Qed.

Lemma history_dispatch (c : command) (fr : Refrigerator) :
  history (dispatch c fr).1 = history fr ++ (if succeeds c fr then record c else []).
Proof.
  rewrite dispatch_state. destruct c as [n q d|n q| | |d|].
  - apply history_insertProduct.
  - apply history_consumeProduct.
  - rewrite showStatus_state. now rewrite app_nil_r.
  - rewrite showHistory_state. now rewrite app_nil_r.
  - rewrite history_checkExpirations. now rewrite app_nil_r.
  - rewrite generateShoppingList_state. now rewrite app_nil_r.
Qed.

(** C7: the action log is append-only. Whatever the operation and the state,
    the log before is a prefix of the log after; a successful insert or
    consume appends its one record, and every other case appends nothing. *)
Theorem history_append_only (c : command) (fr : Refrigerator) :
  history fr `prefix_of` history (dispatch c fr).1 /\
  history (dispatch c fr).1 = history fr ++ (if succeeds c fr then record c else []) /\
  (succeeds c fr = true -> length (record c) = 1%nat).
Proof.
  pose proof (history_dispatch c fr) as E.
  split; [|split].
  - rewrite E. now eexists.
  - exact E.
  - destruct c; simpl; first [discriminate | reflexivity].
Qed.

(** C9: the three queries are pure. Whatever the state, [showStatus],
    [showHistory] and [generateShoppingList] leave the ledger and the
    action log exactly as they were. *)
Theorem queries_are_pure (fr : Refrigerator) :
  (dispatch Status fr).1 = fr /\
  (dispatch History fr).1 = fr /\
  (dispatch ShoppingList fr).1 = fr.
Proof.
  rewrite !dispatch_state.
  auto using showStatus_state, showHistory_state, generateShoppingList_state.
Qed.

(** C10: the sweep writes nothing to the action log. Whatever the state and
    the date, the log after [checkExpirations] is the log before it, so
    what [showHistory] lists and what [generateShoppingList] totals are the
    same before and after: a removal by expiration shows in neither. *)
Theorem sweep_leaves_history (currentDate : string) (fr : Refrigerator) :
  let fr' := (dispatch (CheckExpired currentDate) fr).1 in
  history fr' = history fr /\
  (showHistory fr').2 = (showHistory fr).2 /\
  (generateShoppingList fr').2 = (generateShoppingList fr).2.
Proof.
  cbv zeta. rewrite dispatch_state.
  pose proof (history_checkExpirations currentDate fr) as H.
  split; [exact H|]. split.
  - unfold showHistory. rewrite H. now destruct (decide (history fr = [])).
  - unfold generateShoppingList. rewrite H.
    destruct (scan (history fr) ∅) as [e|m]; [done|]. now destruct (decide (m = ∅)).
Qed.

(** ** The expiration sweep *)

(** [currentDate >= expirationDate] is [expirationDate <= currentDate] in
    the lexicographic order of strings. *)
Lemma isExpired_leb (currentDate expiration : string) :
  isExpired currentDate expiration = String.leb expiration currentDate.
Proof.
  unfold isExpired, Str.ge, String.ltb, String.leb.
  rewrite (String.compare_antisym expiration currentDate).
  now destruct (String.compare currentDate expiration).
Qed.

(** The loop keeps an item of the map exactly when no visited item of that
    name is expired. *)
Lemma sweep_lookup currentDate items acc k p :
  (sweep currentDate items acc).1.1 !! k = Some p <->
  acc.1.1 !! k = Some p /\
  forall p', (k, p') ∈ items -> isExpired currentDate (getExpirationDate p') = false.
Proof.
  revert acc. induction items as [|[k' q] items IH]; intros [[m out] found].
  - simpl. split; [|tauto]. intros H. split; [exact H|]. intros p' Hin. inversion Hin.
  - cbn [sweep fst snd]. destruct (isExpired currentDate (getExpirationDate q)) eqn:Eq.
    + rewrite IH. cbn [fst snd]. split.
      * intros [Hk Hall]. apply lookup_delete_Some in Hk as [Hne Hk].
        split; [exact Hk|]. intros p' Hin. apply elem_of_cons in Hin as [Heq|Hin]; [congruence|].
        now apply Hall.
      * intros [Hk Hall]. destruct (decide (k' = k)) as [->|Hne].
        -- specialize (Hall q (list_elem_of_here _ _)). congruence.
        -- split; [rewrite lookup_delete_ne; auto|]. intros p' Hin. apply Hall. now right.
    + rewrite IH. cbn [fst snd]. split.
      * intros [Hk Hall]. split; [exact Hk|].
        intros p' Hin. apply elem_of_cons in Hin as [Heq|Hin]; [congruence|]. now apply Hall.
      * intros [Hk Hall]. split; [exact Hk|]. intros p' Hin. apply Hall. now right.
Qed.

Lemma checkExpirations_lookup currentDate fr k p :
  products (checkExpirations currentDate fr).1 !! k = Some p <->
  products fr !! k = Some p /\ isExpired currentDate (getExpirationDate p) = false.
Proof.
  unfold checkExpirations.
  pose proof (sweep_lookup currentDate (map_to_list (products fr))
                (products fr, [Text (nl +:+ "--- Checking Expired Products ---")], false) k p) as H.
  destruct (sweep currentDate (map_to_list (products fr)) _) as [[m out] found].
  cbn [fst snd products] in *. rewrite H. split.
  - intros [Hk Hall]. split; [exact Hk|]. apply Hall. now apply elem_of_map_to_list.
  - intros [Hk He]. split; [exact Hk|]. intros p' Hin.
    apply elem_of_map_to_list in Hin. congruence.
Qed.

(** C4: the sweep at [currentDate] removes from the ledger exactly the items
    whose stored expiration date is lexicographically [<= currentDate], and
    leaves every item with a later date in the ledger, unchanged. *)
Theorem sweep_removes_expired (currentDate : string) (fr : Refrigerator) (k : string) :
  products (dispatch (CheckExpired currentDate) fr).1 !! k =
  match products fr !! k with
  | Some p => if String.leb (expirationDate p) currentDate then None else Some p
  | None => None
  end.
Proof.
  rewrite dispatch_state. apply option_eq. intros p'.
  rewrite checkExpirations_lookup, isExpired_leb. unfold getExpirationDate.
  destruct (products fr !! k) as [p|].
  - destruct (String.leb (expirationDate p) currentDate) eqn:E.
    + split; [|discriminate]. intros [[= <-] H]. congruence.
    + split; [tauto|]. intros [= <-]. tauto.
  - split; [tauto|discriminate].
Qed.

(** ** Inserting *)

Lemma dispatch_Insert n q d fr :
  dispatch (Insert n q d) fr = ((insertProduct n q d fr).1, inr (insertProduct n q d fr).2).
Proof. unfold dispatch. now destruct (insertProduct n q d fr). Qed.

Lemma dispatch_Consume n q fr :
  dispatch (Consume n q) fr = ((consumeProduct n q fr).1, inr (consumeProduct n q fr).2).
Proof. unfold dispatch. now destruct (consumeProduct n q fr). Qed.

Lemma insertProduct_absent n q d fr :
  products fr !! n = None -> (0 <? q)%float = true ->
  products (insertProduct n q d fr).1 !! n = Some (mkProduct n q d).
Proof.
  intros Hn Hq. unfold insertProduct. rewrite (Double.ltb_leb_false _ _ Hq), Hn.
  simpl. apply lookup_insert_eq.
Qed.

Lemma insertProduct_present n q d fr p :
  products fr !! n = Some p -> (0 <? q)%float = true ->
  products (insertProduct n q d fr).1 !! n = Some (addQuantity q p).
Proof.
  intros Hn Hq. unfold insertProduct. rewrite (Double.ltb_leb_false _ _ Hq), Hn.
  simpl. apply lookup_insert_eq.
Qed.

(** Further inserts of a name the ledger holds add up, from the left, on the
    stored quantity and keep the stored name and date. *)
Lemma run_inserts_present n (batches : list (float * string)) : forall fr p,
  products fr !! n = Some p ->
  Forall (fun b => (0 <? b.1)%float = true) batches ->
  exists fr',
    run (map (fun b => Insert n b.1 b.2) batches) fr = inr fr' /\
    products fr' !! n =
      Some (mkProduct (name p) (fold_left PrimFloat.add (map fst batches) (quantity p))
              (expirationDate p)).
Proof.
  induction batches as [|[q d] batches IH]; intros fr p Hn Hall.
  - exists fr. split; [reflexivity|]. now destruct p.
  - inversion Hall as [|b l Hq Hrest]; subst. cbn [map run fst snd].
    rewrite dispatch_Insert.
    destruct (IH (insertProduct n q d fr).1 (addQuantity q p)) as (fr' & Hrun & Hlook);
      [now apply insertProduct_present|exact Hrest|].
    exists fr'. split; [exact Hrun|]. exact Hlook.
Qed.

(** C2: inserting the same name with the quantities [q1 .. qn], each [> 0],
    into a ledger that does not hold the name leaves it there with the
    quantity [q1 + ... + qn] (the additions of [double], in the order of the
    inserts) and with the expiration date of the first insert. *)
Theorem repeated_inserts_add_up (n : string) (q1 : float) (d1 : string)
    (batches : list (float * string)) (fr : Refrigerator) :
  products fr !! n = None ->
  (0 <? q1)%float = true ->
  Forall (fun b => (0 <? b.1)%float = true) batches ->
  exists fr',
    run (Insert n q1 d1 :: map (fun b => Insert n b.1 b.2) batches) fr = inr fr' /\
    products fr' !! n =
      Some (mkProduct n (fold_left PrimFloat.add (map fst batches) q1) d1).
Proof.
  intros Hn Hq Hall. cbn [run]. rewrite dispatch_Insert.
  apply (run_inserts_present n batches _ (mkProduct n q1 d1)); [|exact Hall].
  now apply insertProduct_absent.
Qed.

Lemma repeated_inserts_add_up_witness :
  exists fr',
    run [Insert "milk" 2 "2025-05-01"; Insert "milk" 3 "2025-05-10"] fridge = inr fr' /\
    products fr' !! "milk"%string = Some (mkProduct "milk" 5 "2025-05-01").
Proof.
  apply (repeated_inserts_add_up "milk" 2 "2025-05-01" [(3%float, "2025-05-10"%string)] fridge).
  - reflexivity.
  - reflexivity.
  - repeat constructor.
Defined.

(** ** Consuming *)

(** What a consume within the stock does. *)
Lemma consumeProduct_within n r p fr :
  products fr !! n = Some p ->
  (0 <? r)%float = true ->
  (r <=? quantity p)%float = true ->
  consumeProduct n r fr =
  ({| products := if (quantity p - r =? 0)%float then delete n (products fr)
                  else <[n := consumeQuantity r p]> (products fr);
      history := history fr ++ [consumed r n] |}, []).
Proof.
  intros Hn Hr Hle. unfold consumeProduct, getQuantity.
  rewrite (Double.ltb_leb_false _ _ Hr), Hn, (Double.leb_ltb_false _ _ Hle).
  cbn [consumeQuantity quantity logAction products history].
  destruct (quantity p - r =? 0)%float; [|reflexivity].
  now rewrite delete_insert_eq.
Qed.

(** C3, first the case the claim misses: a stored quantity can be infinite
    (an insert of [infinity], or a sum that overflows), and consuming all of
    it leaves [infinity - infinity], a NaN, which is not zero: the item
    stays in the ledger and in the status. *)
Lemma consume_all_of_infinity_keeps_item :
  let fr := (insertProduct "ice" infinity "2025-01-01" fridge).1 in
  let fr' := (dispatch (Consume "ice" infinity) fr).1 in
  products fr !! "ice"%string = Some (mkProduct "ice" infinity "2025-01-01") /\
  (0 <? infinity)%float = true /\
  (infinity <=? infinity)%float = true /\
  products fr' !! "ice"%string = Some (mkProduct "ice" nan "2025-01-01") /\
  (showStatus fr').2 =
    [Text (nl +:+ "--- Current Refrigerator Status ---"); StatusLine "ice" nan "2025-01-01"].
Proof. vm_compute. repeat split. Qed.

(** C3: when the ledger holds [n] with the quantity [q] and [0 < r <= q],
    consuming [r] of [n] appends one Consume record, subtracts [r] from the
    stored quantity, and removes the item exactly when the difference is
    exactly zero, leaving the other items alone; consuming the whole of a
    finite quantity removes the item, which the status no longer lists. *)
Theorem consume_within_stock (n : string) (r : float) (p : Product) (fr : Refrigerator) :
  products fr !! n = Some p ->
  (0 <? r)%float = true ->
  (r <=? quantity p)%float = true ->
  let fr' := (dispatch (Consume n r) fr).1 in
  history fr' = history fr ++ [consumed r n] /\
  products fr' !! n =
    (if (quantity p - r =? 0)%float then None
     else Some (mkProduct (name p) (quantity p - r) (expirationDate p))) /\
  (forall k, k <> n -> products fr' !! k = products fr !! k) /\
  (r = quantity p -> isfinite (quantity p) = true ->
   products fr' = delete n (products fr) /\
   forall q d, StatusLine n q d ∈ (showStatus fr').2 ->
     exists k, k <> n /\ products fr !! k = Some (mkProduct n q d)).
Proof.
  intros Hn Hr Hle. cbv zeta. rewrite dispatch_state.
  rewrite (consumeProduct_within n r p fr Hn Hr Hle). cbn [fst products history].
  split; [reflexivity|]. split; [|split].
  - destruct (quantity p - r =? 0)%float.
    + apply lookup_delete_eq.
    + apply lookup_insert_eq.
  - intros k Hk. destruct (quantity p - r =? 0)%float.
    + now apply lookup_delete_ne.
    + now apply lookup_insert_ne.
  - intros -> Hfin. rewrite (Double.sub_diag _ Hfin). split; [reflexivity|].
    intros q d. unfold showStatus. cbn [products].
    destruct (decide (delete n (products fr) = ∅)) as [E|E]; cbn [snd].
    + intros Hin. repeat (apply elem_of_cons in Hin as [Hin|Hin]; [discriminate|]).
      inversion Hin.
    + intros Hin. apply elem_of_cons in Hin as [Hin|Hin]; [discriminate|].
      apply list_elem_of_fmap in Hin as ([k p'] & Heq & Hin).
      apply elem_of_map_to_list, lookup_delete_Some in Hin as [Hne Hk].
      cbn [fst snd] in Heq. injection Heq as -> -> ->.
      exists k. split; [congruence|]. now destruct p'.
Qed.

Lemma consume_within_stock_witness :
  let fr := (insertProduct "eggs" 12 "2025-04-01" fridge).1 in
  let fr' := (dispatch (Consume "eggs" 12) fr).1 in
  history fr' = history fr ++ [consumed 12 "eggs"] /\
  products fr' !! "eggs"%string = None /\
  (forall k, k <> "eggs"%string -> products fr' !! k = products fr !! k) /\
  (12%float = 12%float -> isfinite 12 = true ->
   products fr' = delete "eggs"%string (products fr) /\
   forall q d, StatusLine "eggs" q d ∈ (showStatus fr').2 ->
     exists k, k <> "eggs"%string /\ products fr !! k = Some (mkProduct "eggs" q d)).
Proof.
  apply (consume_within_stock "eggs" 12 (mkProduct "eggs" 12 "2025-04-01")
           (insertProduct "eggs" 12 "2025-04-01" fridge).1).
  - reflexivity.
  - reflexivity.
  - reflexivity.
Defined.

(** ** Which operation fails, and how *)





(** ** Stored quantities *)

(** C8, the input the check of [insertProduct] lets through: a NaN is not
    [<= 0], so it is stored, and the stored quantity is not [> 0]. *)
Lemma insert_nan_is_stored :
  run [Insert "milk" nan "2025-05-01"] fridge =
    inr {| products := {[ "milk"%string := mkProduct "milk" nan "2025-05-01" ]};
           history := ["Inserted nan of milk"%string] |} /\
  (0 <? nan)%float = false.
Proof. vm_compute. split; reflexivity. Qed.

(** ** The shopping list *)

(** C5, an input on which the list is wrong: [generateShoppingList] takes
    every record that contains the text [Consumed] for a consumption, the
    record of an insert included. After the one insert of a product named
    [Consumed], and no consume, the list asks to buy it back. *)
Lemma inserted_name_counted_as_consumed :
  let fr := (insertProduct "Consumed" 4 "2025-03-01" fridge).1 in
  history fr = ["Inserted 4.000000 of Consumed"%string] /\
  scan (history fr) ∅ = inr {[ "Consumed"%string := 4%float ]} /\
  (generateShoppingList fr).2 =
    inr [Text (nl +:+ "--- Generated Shopping List ---"); BuyMore "Consumed" 4].
Proof. intros fr; subst fr. repeat split; vm_compute; reflexivity. Qed.

(** The totals are those of the quantities as the log prints them, with six
    decimals: a consumption of four ten-millionths counts for nothing. *)
Lemma consumed_quantity_read_back_rounded :
  let fr := (consumeProduct "juice" 0x1.ad7f29abcaf48p-22
               (insertProduct "juice" 4 "2025-03-01" fridge).1).1 in
  history fr = ["Inserted 4.000000 of juice"%string; "Consumed 0.000000 of juice"%string] /\
  (generateShoppingList fr).2 =
    inr [Text (nl +:+ "--- Generated Shopping List ---"); BuyMore "juice" 0].
Proof. vm_compute. repeat split. Qed.

(** ** The shopping list of names that do not contain [Consumed] *)

(** *** Appending strings *)

Module StrFacts.

Lemma app_cons c s t : String c s +:+ t = String c (s +:+ t).
Proof. reflexivity. Qed.

Lemma app_nil_l t : "" +:+ t = t.
Proof. reflexivity. Qed.

Lemma app_nil_r s : s +:+ "" = s.
Proof. induction s as [|c s IH]; [reflexivity|]. now rewrite app_cons, IH. Qed.

Lemma app_assoc s t u : (s +:+ t) +:+ u = s +:+ (t +:+ u).
Proof. induction s as [|c s IH]; [reflexivity|]. now rewrite !app_cons, IH. Qed.

Lemma length_app s t : String.length (s +:+ t) = (String.length s + String.length t)%nat.
Proof. induction s as [|c s IH]; [reflexivity|]. rewrite app_cons. simpl. now rewrite IH. Qed.

End StrFacts.

(** *** Characters and decimal digits *)

Lemma every_append P s t : every P (s +:+ t) = every P s && every P t.
Proof. induction s as [|c s IH]; simpl; [reflexivity|]. now rewrite IH, andb_assoc. Qed.

Lemma every_impl (P Q : ascii -> bool) s :
  (forall c, P c = true -> Q c = true) -> every P s = true -> every Q s = true.
Proof.
  intros H. induction s as [|c s IH]; simpl; [reflexivity|].
  intros [Hc Hs]%andb_prop. now rewrite (H c Hc), IH.
Qed.

Lemma of_uint_acc_value u : forall p, Z.pos (Pos.of_uint_acc u p) = uint_value u (Z.pos p).
Proof.
  induction u; intros p; cbn [Pos.of_uint_acc uint_value]; rewrite ?IHu; try reflexivity; f_equal; lia.
Qed.

Lemma of_uint_value u : Z.of_N (N.of_uint u) = uint_value u 0.
Proof.
  unfold N.of_uint. induction u; cbn [Pos.of_uint uint_value]; try exact IHu; try reflexivity.
  all: cbn [Z.of_N]; now rewrite of_uint_acc_value.
Qed.

Lemma digits_uint u : forall rest acc n,
  Stod.digits Stod.digit_of 10 (NilEmpty.string_of_uint u +:+ rest) acc n =
  Stod.digits Stod.digit_of 10 rest (uint_value u acc) (n + Z.of_nat (Decimal.nb_digits u)).
Proof.
  induction u; intros rest acc n; cbn [NilEmpty.string_of_uint uint_value Decimal.nb_digits String.append].
  1: now rewrite Z.add_0_r.
  all: match goal with |- context [String ?c ?s +:+ ?r] =>
         change (String c s +:+ r) with (String c (s +:+ r)) end.
  all: cbn [Stod.digits].
  all: match goal with |- context [Stod.digit_of ?c] =>
         let v := eval vm_compute in (Stod.digit_of c) in change (Stod.digit_of c) with v end.
  all: cbv iota; rewrite IHu; f_equal; lia.
Qed.

Lemma every_string_of_uint u : every numeral (NilEmpty.string_of_uint u) = true.
Proof. induction u; cbn [NilEmpty.string_of_uint every]; try reflexivity; now rewrite IHu. Qed.

(** *** What [to_string] writes *)

Lemma digit_cases d :
  exists k, 0 <= k < 10 /\ d mod 10 = k /\
            Fmt.digit d = ascii_of_nat (48 + Z.to_nat k).
Proof.
  exists (d mod 10). split; [apply Z.mod_pos_bound; lia|]. split; reflexivity.
Qed.

Lemma digit_of_digit d : Stod.digit_of (Fmt.digit d) = Some (d mod 10).
Proof.
  destruct (digit_cases d) as (k & Hk & -> & ->).
  assert (k = 0 \/ k = 1 \/ k = 2 \/ k = 3 \/ k = 4 \/ k = 5 \/ k = 6 \/ k = 7 \/ k = 8 \/ k = 9)
    as H by lia.
  repeat (destruct H as [->|H]; [reflexivity|]). now subst k.
Qed.

Lemma numeral_digit d : numeral (Fmt.digit d) = true.
Proof.
  destruct (digit_cases d) as (k & Hk & _ & ->).
  assert (k = 0 \/ k = 1 \/ k = 2 \/ k = 3 \/ k = 4 \/ k = 5 \/ k = 6 \/ k = 7 \/ k = 8 \/ k = 9)
    as H by lia.
  repeat (destruct H as [->|H]; [reflexivity|]). now subst k.
Qed.

Lemma every_six_digits f : every numeral (Fmt.six_digits f) = true.
Proof. unfold Fmt.six_digits. cbn [every]. now rewrite !numeral_digit. Qed.

Lemma digits_six_digits f rest acc n :
  0 <= f < 1000000 ->
  Stod.digits Stod.digit_of 10 (Fmt.six_digits f +:+ rest) acc n =
  Stod.digits Stod.digit_of 10 rest (acc * 1000000 + f) (n + 6).
Proof.
  intros Hf. unfold Fmt.six_digits. rewrite !StrFacts.app_cons, StrFacts.app_nil_l.
  cbn [Stod.digits]. rewrite !digit_of_digit. f_equal.
  - Z.div_mod_to_equations. lia.
  - lia.
Qed.

Lemma decimal_nonempty n :
  Fmt.decimal n = NilEmpty.string_of_uint (N.to_uint (Z.to_N n)) /\
  Fmt.decimal n <> "".
Proof.
  unfold Fmt.decimal, NilZero.string_of_uint.
  destruct (Z.to_N n) as [|p]; [split; [reflexivity|discriminate]|].
  cbn [N.to_uint]. pose proof (DecimalPos.Unsigned.to_uint_nonnil p) as Hnil.
  destruct (Pos.to_uint p) eqn:E; try congruence; split; try reflexivity; discriminate.
Qed.

Lemma digits_decimal i rest :
  0 <= i ->
  exists k, 0 <= k /\
    Stod.digits Stod.digit_of 10 (Fmt.decimal i +:+ rest) 0 0 =
    Stod.digits Stod.digit_of 10 rest i k.
Proof.
  intros Hi. destruct (decimal_nonempty i) as [-> _].
  exists (Z.of_nat (Decimal.nb_digits (N.to_uint (Z.to_N i)))). split; [lia|].
  rewrite digits_uint, <- of_uint_value, DecimalN.Unsigned.of_to.
  f_equal. lia.
Qed.

Lemma every_decimal i : every numeral (Fmt.decimal i) = true.
Proof. destruct (decimal_nonempty i) as [-> _]. apply every_string_of_uint. Qed.

Lemma every_fixed6 n : every numeral (Fmt.fixed6 n) = true.
Proof.
  unfold Fmt.fixed6. now rewrite !every_append, every_decimal, every_six_digits.
Qed.

(** The integer [stod] reads from a number written by [fixed6] is the
    number of millionths. *)
Lemma mantissa_fixed6 n :
  0 <= n ->
  exists d, 0 < d /\
    Stod.mantissa Stod.digit_of 10 (Fmt.fixed6 n) = (n, d, 6, "").
Proof.
  intros Hn. unfold Fmt.fixed6, Stod.mantissa.
  destruct (digits_decimal (n / 1000000) ("." +:+ Fmt.six_digits (n mod 1000000))) as (k & Hk & ->).
  { apply Z.div_pos; lia. }
  rewrite StrFacts.app_cons, StrFacts.app_nil_l. cbn [Stod.digits].
  change (Stod.digit_of ".") with (@None Z). cbv iota.
  rewrite <- (StrFacts.app_nil_r (Fmt.six_digits _)), digits_six_digits by (apply Z.mod_pos_bound; lia).
  cbn [Stod.digits].
  replace (k + (0 + 6) =? 0) with false by (symmetry; apply Z.eqb_neq; lia).
  exists (k + (0 + 6)). split; [lia|]. do 3 f_equal.
  Z.div_mod_to_equations. lia.
Qed.

(** *** What [stod] reads back *)

Lemma numeral_code c : numeral c = true -> 46 <= Stod.code c <= 57.
Proof. unfold numeral. intros [H1 H2]%andb_prop. lia. Qed.

Lemma skip_space_numeral c s : numeral c = true -> Stod.skip_space (String c s) = String c s.
Proof.
  intros H%numeral_code. cbn [Stod.skip_space]. unfold Stod.isspace.
  replace (Stod.code c =? 32) with false by (symmetry; apply Z.eqb_neq; lia).
  replace (Stod.code c <=? 13) with false by (symmetry; apply Z.leb_gt; lia).
  now rewrite andb_false_r.
Qed.

Lemma lower_numeral c : numeral c = true -> Stod.lower c = Stod.code c.
Proof.
  intros H%numeral_code. unfold Stod.lower.
  replace (65 <=? Stod.code c) with false by (symmetry; apply Z.leb_gt; lia). reflexivity.
Qed.

Lemma sign_numeral c s : numeral c = true -> Stod.sign (String c s) = (false, String c s).
Proof.
  intros H. destruct c as [[] [] [] [] [] [] [] []]; try reflexivity.
  all: vm_compute in H; discriminate H.
Qed.

Lemma starts_with_numeral a w c s :
  97 <= Stod.code a -> numeral c = true -> Stod.starts_with (String a w) (String c s) = false.
Proof.
  intros Ha Hc. cbn [Stod.starts_with]. rewrite (lower_numeral c Hc).
  apply numeral_code in Hc.
  replace (Stod.code a =? Stod.code c) with false by (symmetry; apply Z.eqb_neq; lia).
  reflexivity.
Qed.

Lemma hexadecimal_numeral neg c x s :
  numeral x = true -> Stod.hexadecimal neg (String c (String x s)) = None.
Proof.
  intros Hx. pose proof (lower_numeral x Hx) as Hl. apply numeral_code in Hx.
  assert (E : (Stod.lower x =? 120) = false) by (apply Z.eqb_neq; lia).
  destruct c as [[] [] [] [] [] [] [] []]; cbn [Stod.hexadecimal]; try reflexivity.
  now rewrite E.
Qed.

(** On a number written with digits and a point, [stod] is the decimal
    reading of the mantissa. *)
Lemma stod_numeral c x s :
  numeral c = true -> numeral x = true ->
  Stod.stod (String c (String x s)) =
  let '(m, n, k, rest) := Stod.mantissa Stod.digit_of 10 (String c (String x s)) in
  if n =? 0 then inl Stod.invalid_argument
  else Stod.scaled false m 10 k 10 (Stod.exponent 101 rest).
Proof.
  intros Hc Hx. unfold Stod.stod.
  rewrite (skip_space_numeral c _ Hc), (sign_numeral c _ Hc).
  rewrite !(starts_with_numeral _ _ c _) by (try exact Hc; vm_compute; discriminate).
  now rewrite (hexadecimal_numeral false c x s Hx).
Qed.

Lemma nearest_in_range m :
  0 <= m -> m < overflow_threshold * 1000000 ->
  exists r, Stod.nearest false m 1000000 = inr r.
Proof.
  intros H0 H1. unfold Stod.nearest.
  destruct (m =? 0) eqn:E0; [eauto|]. apply Z.eqb_neq in E0.
  fold overflow_threshold.
  replace (overflow_threshold * 1000000 <=? m) with false by (symmetry; apply Z.leb_gt; lia).
  assert (Hq : 2 ^ 52 <= m * 2 ^ 1074 / 1000000).
  { transitivity (1 * 2 ^ 1074 / 1000000).
    - vm_compute. discriminate.
    - apply Z.div_le_mono; [lia|]. apply Z.mul_le_mono_nonneg_r; [|lia].
      apply Z.pow_nonneg. lia. }
  replace (m * 2 ^ 1074 / 1000000 <? 2 ^ 52) with false by (symmetry; apply Z.ltb_ge; exact Hq).
  cbn [andb]. eauto.
Qed.

Lemma round_half_even_le num den : 0 <= num -> 2 <= den -> Fmt.round_half_even num den <= num + 1.
Proof.
  intros Hn Hd. unfold Fmt.round_half_even.
  assert (num / den <= num) by (apply Z.div_le_upper_bound; nia).
  destruct (2 * (num mod den) ?= den); try destruct (Z.even (num / den)); lia.
Qed.

Lemma round_half_even_nonneg num den : 0 <= num -> 0 < den -> 0 <= Fmt.round_half_even num den.
Proof.
  intros Hn Hd. unfold Fmt.round_half_even.
  assert (0 <= num / den) by (apply Z.div_pos; lia).
  destruct (2 * (num mod den) ?= den); try destruct (Z.even (num / den)); lia.
Qed.

(** A double, in millionths, stays below the overflow threshold. *)
Lemma millionths_in_range s m e :
  valid_binary (S754_finite s m e) = true ->
  0 <= Fmt.millionths m e < overflow_threshold * 1000000.
Proof.
  intros V. pose proof (Double.valid_finite s m e V) as (He & Hd & _).
  pose proof (Double.digits2_pos_bounds m) as [_ Hm].
  assert (Hm' : Z.pos m < 2 ^ 53).
  { eapply Z.lt_le_trans; [exact Hm|]. apply Z.pow_le_mono_r; [lia|exact Hd]. }
  assert (Hemax : e <= 971).
  { revert V. unfold SpecFloat.valid_binary, bounded. intros [_ H]%andb_prop.
    apply Z.leb_le in H. exact H. }
  unfold Fmt.millionths. destruct (0 <=? e) eqn:E.
  - apply Z.leb_le in E.
    assert (Hp : 0 < 2 ^ e <= 2 ^ 971).
    { split; [apply Z.pow_pos_nonneg; lia|apply Z.pow_le_mono_r; lia]. }
    unfold overflow_threshold.
    replace (2 ^ 1024) with (2 ^ 53 * 2 ^ 971) by reflexivity.
    replace (2 ^ 971) with (2 * 2 ^ 970) in * by reflexivity.
    assert (0 < 2 ^ 970) by (apply Z.pow_pos_nonneg; lia).
    remember (2 ^ 970) as B. remember (2 ^ e) as P. remember (2 ^ 53) as M.
    assert (2 <= M) by (subst M; vm_compute; discriminate).
    split; [nia|]. nia.
  - apply Z.leb_gt in E.
    assert (Hp : 2 <= 2 ^ (- e)).
    { change 2 with (2 ^ 1) at 1. apply Z.pow_le_mono_r; lia. }
    split; [apply round_half_even_nonneg; lia|].
    eapply Z.le_lt_trans; [apply round_half_even_le; lia|].
    unfold overflow_threshold.
    assert (2 ^ 53 * 1000000 + 1 < (2 ^ 1024 - 2 ^ 970) * 1000000) by (vm_compute; reflexivity).
    lia.
Qed.

Lemma numeral_quiet c : numeral c = true -> quiet c = true.
Proof.
  intros H%numeral_code. unfold quiet.
  replace (Stod.code c =? 32) with false by (symmetry; apply Z.eqb_neq; lia).
  replace (Stod.code c =? 67) with false by (symmetry; apply Z.eqb_neq; lia).
  replace (Stod.code c =? 111) with false by (symmetry; apply Z.eqb_neq; lia).
  reflexivity.
Qed.

Lemma every_quiet_to_string q : every quiet (Fmt.to_string q) = true.
Proof.
  unfold Fmt.to_string. destruct (Prim2SF q) as [[]|[]| |s m e]; try reflexivity.
  rewrite every_append. apply andb_true_intro. split; [now destruct s|].
  apply (every_impl numeral); [apply numeral_quiet|apply every_fixed6].
Qed.

Lemma fixed6_shape n :
  exists c x t, Fmt.fixed6 n = String c (String x t) /\ numeral c = true /\ numeral x = true.
Proof.
  pose proof (every_fixed6 n) as H. unfold Fmt.fixed6 in *.
  destruct (decimal_nonempty (n / 1000000)) as [_ Hne].
  destruct (Fmt.decimal (n / 1000000)) as [|c [|x t]]; [congruence| |].
  - rewrite !StrFacts.app_cons, StrFacts.app_nil_l in *. cbn [every] in H.
    apply andb_prop in H as [Hc H]. apply andb_prop in H as [Hx _]. eauto 10.
  - rewrite !StrFacts.app_cons in *. cbn [every] in H.
    apply andb_prop in H as [Hc H]. apply andb_prop in H as [Hx _]. eauto 10.
Qed.

Lemma to_string_nonempty q : Fmt.to_string q <> "".
Proof.
  unfold Fmt.to_string. destruct (Prim2SF q) as [[]|[]| |[] m e]; try discriminate.
  rewrite StrFacts.app_nil_l. destruct (fixed6_shape (Fmt.millionths m e)) as (c & x & t & -> & _).
  discriminate.
Qed.

(** [stod] reads every quantity that passes the check [<= 0] back from its
    text without throwing. *)
Lemma stod_to_string q :
  (q <=? 0)%float = false -> Stod.stod (Fmt.to_string q) = inr (read_back q).
Proof.
  intros Hq.
  assert (G : exists r, Stod.stod (Fmt.to_string q) = inr r).
  { revert Hq. rewrite FloatAxioms.leb_spec. change (Prim2SF 0) with (S754_zero false).
    pose proof (Prim2SF_valid q) as V. unfold Fmt.to_string.
    destruct (Prim2SF q) as [[]|[]| |[] m e]; try discriminate; intros _.
    - exists infinity. reflexivity.
    - exists nan. reflexivity.
    - rewrite StrFacts.app_nil_l.
      destruct (fixed6_shape (Fmt.millionths m e)) as (c & x & t & E & Hc & Hx).
      pose proof (millionths_in_range false m e V) as [H0 H1].
      destruct (mantissa_fixed6 (Fmt.millionths m e) H0) as (d & Hd & Hm).
      rewrite E in *. rewrite (stod_numeral c x t Hc Hx), Hm.
      replace (d =? 0) with false by (symmetry; apply Z.eqb_neq; lia).
      unfold Stod.exponent, Stod.scaled. cbn [Z.leb Z.compare].
      rewrite Z.pow_0_r, Z.mul_1_r. change (10 ^ 6) with 1000000.
      now apply nearest_in_range. }
  destruct G as [r G]. unfold read_back. now rewrite G.
Qed.

(** *** Finding and cutting *)

Lemma prefix_cons_ne a p c s : a <> c -> String.prefix (String a p) (String c s) = false.
Proof. intros H. cbn [String.prefix]. destruct (ascii_dec a c); congruence. Qed.

Lemma prefix_app p t : String.prefix p (p +:+ t) = true.
Proof.
  induction p as [|a p IH]; [now destruct t|].
  rewrite StrFacts.app_cons. cbn [String.prefix]. destruct (ascii_dec a a); congruence.
Qed.

Lemma index_here p t : String.index 0 p (p +:+ t) = Some 0%nat.
Proof.
  pose proof (prefix_app p t) as H.
  destruct (p +:+ t) as [|b s] eqn:E.
  - destruct p; [reflexivity|discriminate].
  - cbn [String.index]. now rewrite H.
Qed.

Lemma index_skip a p s t :
  every (fun c => negb (Stod.code c =? Stod.code a)) s = true ->
  String.index 0 (String a p) (s +:+ t) =
  option_map (fun i => (String.length s + i)%nat) (String.index 0 (String a p) t).
Proof.
  induction s as [|c s IH]; intros H.
  - rewrite StrFacts.app_nil_l. now destruct (String.index 0 (String a p) t).
  - cbn [every] in H. apply andb_prop in H as [Hc Hs].
    rewrite StrFacts.app_cons. cbn [String.index]. rewrite prefix_cons_ne.
    + rewrite (IH Hs). now destruct (String.index 0 (String a p) t).
    + intros ->. rewrite Z.eqb_refl in Hc. discriminate.
Qed.

Lemma substring_skip s t m :
  String.substring (String.length s) m (s +:+ t) = String.substring 0 m t.
Proof. induction s as [|c s IH]; [reflexivity|]. rewrite StrFacts.app_cons. exact IH. Qed.

Lemma substring_prefix s t :
  String.substring 0 (String.length s) (s +:+ t) = s.
Proof.
  induction s as [|c s IH]; [now destruct t|].
  rewrite StrFacts.app_cons. cbn [String.length String.substring]. now rewrite IH.
Qed.

Lemma substring_all s : String.substring 0 (String.length s) s = s.
Proof. rewrite <- (StrFacts.app_nil_r s) at 2. apply substring_prefix. Qed.

(** *** One record of the log *)

(** The record of an insert is skipped, when the name does not contain
    [Consumed]. *)
Lemma tally_inserted m q n :
  String.index 0 "Consumed" n = None -> tally m (inserted q n) = inr m.
Proof.
  intros Hn. unfold tally, Str.find, inserted.
  replace ("Inserted " +:+ Fmt.to_string q +:+ " of " +:+ n)
    with (("Inserted " +:+ Fmt.to_string q +:+ " of ") +:+ n)
    by now rewrite !StrFacts.app_assoc.
  rewrite index_skip, Hn; [reflexivity|].
  rewrite !every_append. apply andb_true_intro. split; [reflexivity|].
  apply andb_true_intro. split; [|reflexivity].
  apply (every_impl quiet); [|apply every_quiet_to_string].
  intros c. unfold quiet. intros [[_ H]%andb_prop _]%andb_prop. exact H.
Qed.

Lemma index_of_in_consumed ts n :
  ts <> "" -> every quiet ts = true ->
  String.index 0 " of " ("Consumed " +:+ ts +:+ " of " +:+ n) = Some (9 + String.length ts)%nat.
Proof.
  intros Hne Hq.
  change ("Consumed " +:+ ts +:+ " of " +:+ n)
    with ("Consumed" +:+ String " " (ts +:+ " of " +:+ n)).
  rewrite index_skip by reflexivity.
  destruct ts as [|c ts']; [congruence|].
  cbn [every] in Hq. apply andb_prop in Hq as [Hc Hq'].
  assert (Hspace : every (fun c => negb (Stod.code c =? Stod.code " ")) (String c ts') = true).
  { apply (every_impl quiet); [|cbn [every]; now rewrite Hc, Hq'].
    intros c0. unfold quiet. intros [[H _]%andb_prop _]%andb_prop. exact H. }
  cbn [String.index]. rewrite StrFacts.app_cons.
  assert (Hp : String.prefix " of " (String " " (String c (ts' +:+ " of " +:+ n))) = false).
  { cbn [String.prefix]. destruct (ascii_dec " " " "); [|congruence].
    destruct (ascii_dec "o" c) as [<-|]; [|reflexivity].
    vm_compute in Hc. discriminate Hc. }
  rewrite Hp, <- StrFacts.app_cons, (index_skip " " "of " (String c ts') _ Hspace), index_here.
  cbn [option_map]. f_equal. simpl. lia.
Qed.

(** The record of a consume adds what [stod] reads back of the quantity to
    the total of the name. *)
Lemma tally_consumed m q n :
  (q <=? 0)%float = false ->
  Str.size (consumed q n) < Str.size_max ->
  tally m (consumed q n) =
  inr (<[n := (default 0%float (m !! n) + read_back q)%float]> m).
Proof.
  intros Hq Hsize. unfold tally, Str.find, consumed in *.
  set (ts := Fmt.to_string q) in *.
  assert (Hlen : Str.size ("Consumed " +:+ ts +:+ " of " +:+ n) =
                 13 + Z.of_nat (String.length ts) + Z.of_nat (String.length n)).
  { unfold Str.size. rewrite !StrFacts.length_app. simpl String.length. lia. }
  rewrite Hlen in Hsize. unfold Str.size_max in Hsize.
  change ("Consumed " +:+ ts +:+ " of " +:+ n)
    with ("Consumed" +:+ (" " +:+ ts +:+ " of " +:+ n)) at 1.
  rewrite index_here. cbn [Z.of_nat]. change (0 =? Str.npos) with false. cbv iota.
  assert (E1 : String.index 0 " " ("Consumed " +:+ ts +:+ " of " +:+ n) = Some 8%nat).
  { change ("Consumed " +:+ ts +:+ " of " +:+ n)
      with ("Consumed" +:+ (" " +:+ (ts +:+ " of " +:+ n))).
    rewrite index_skip by reflexivity. now rewrite index_here. }
  rewrite E1, (index_of_in_consumed ts n (to_string_nonempty q) (every_quiet_to_string q)).
  change (Str.wrap (Z.of_nat 8 + 1)) with 9.
  assert (E2 : Str.wrap (Z.of_nat (9 + String.length ts) - 9) = Z.of_nat (String.length ts)).
  { unfold Str.wrap, Str.size_max. rewrite Z.mod_small; lia. }
  assert (E3 : Str.wrap (Z.of_nat (9 + String.length ts) + 4) = 13 + Z.of_nat (String.length ts)).
  { unfold Str.wrap, Str.size_max. rewrite Z.mod_small; lia. }
  rewrite E2, E3. unfold Str.substr. rewrite Hlen.
  replace (13 + Z.of_nat (String.length ts) + Z.of_nat (String.length n) <? 9)
    with false by (symmetry; apply Z.ltb_ge; lia).
  rewrite Z.min_l by lia.
  change (Z.to_nat 9) with (String.length "Consumed ").
  rewrite Nat2Z.id, substring_skip, substring_prefix.
  fold ts. unfold ts at 1. rewrite (stod_to_string q Hq).
  replace (_ <? 13 + Z.of_nat (String.length ts)) with false by (symmetry; apply Z.ltb_ge; lia).
  rewrite Z.min_r by (unfold Str.npos, Str.size_max; lia).
  replace ("Consumed " +:+ ts +:+ " of " +:+ n)
    with (("Consumed " +:+ ts +:+ " of ") +:+ n)
    by now rewrite !StrFacts.app_assoc.
  replace (Z.to_nat (13 + Z.of_nat (String.length ts)))
    with (String.length ("Consumed " +:+ ts +:+ " of "))
    by (rewrite !StrFacts.length_app; simpl String.length; lia).
  replace (Z.to_nat _) with (String.length n) by lia.
  now rewrite substring_skip, substring_all.
Qed.

(** *** The whole log *)

Lemma history_run cs : forall fr fr',
  run cs fr = inr fr' -> history fr' = history fr ++ flat_map record (successes cs fr).
Proof.
  induction cs as [|c cs IH]; intros fr fr' Hrun.
  - injection Hrun as <-. cbn. now rewrite app_nil_r.
  - cbn [run successes] in *. pose proof (history_dispatch c fr) as Hh.
    destruct (dispatch c fr) as [fr1 [e|out]]; [discriminate|]. cbn [fst] in *.
    rewrite (IH fr1 fr' Hrun), Hh, flat_map_app, <- app_assoc. f_equal. f_equal.
    destruct (succeeds c fr); cbn; [now rewrite app_nil_r|reflexivity].
Qed.

Lemma successes_accepted cs : forall fr, Forall accepted_quantity (successes cs fr).
Proof.
  induction cs as [|c cs IH]; intros fr; cbn [successes]; [constructor|].
  apply Forall_app. split; [|apply IH].
  destruct (succeeds c fr) eqn:E; constructor; [|constructor].
  destruct c; cbn in *; try discriminate.
  - now apply negb_true_iff in E.
  - apply andb_prop in E as [E _]. now apply negb_true_iff in E.
Qed.

Lemma successes_plain cs : forall fr, Forall plain cs -> Forall plain (successes cs fr).
Proof.
  induction cs as [|c cs IH]; intros fr H; cbn [successes]; [constructor|].
  inversion H; subst. apply Forall_app. split; [|now apply IH].
  destruct (succeeds c fr); repeat constructor. assumption.
Qed.

Lemma scan_records cs : forall m,
  Forall accepted_quantity cs -> Forall plain cs ->
  Forall (fun e => Str.size e < Str.size_max) (flat_map record cs) ->
  scan (flat_map record cs) m = inr (totals cs m).
Proof.
  induction cs as [|c cs IH]; intros m Hacc Hplain Hsize; [reflexivity|].
  inversion Hacc as [|? ? Hq Hacc']; inversion Hplain as [|? ? Hn Hplain']; subst.
  cbn [flat_map] in Hsize. apply Forall_app in Hsize as [Hc Hsize].
  destruct c as [n q d|n q| | |d|]; cbn in Hq; try contradiction.
  - cbn [flat_map record totals fold_left List.app scan]. rewrite (tally_inserted m q n Hn).
    now apply IH.
  - cbn [flat_map record totals fold_left List.app scan].
    inversion Hc; subst. rewrite (tally_consumed m q n Hq) by assumption.
    now apply IH.
Qed.

Lemma totals_lookup n cs : forall m,
  totals cs m !! n =
  match consumed_of n cs with
  | [] => m !! n
  | qs => Some (fold_left PrimFloat.add (map read_back qs) (default 0%float (m !! n)))
  end.
Proof.
  induction cs as [|c cs IH]; intros m; [reflexivity|].
  unfold totals, consumed_of in *. cbn [fold_left flat_map].
  destruct c as [n' q' d|n' q'| | |d|]; cbn [List.app]; try apply IH.
  rewrite IH. destruct (decide (n' = n)) as [->|Hne].
  - cbn [List.app map fold_left]. rewrite lookup_insert_eq. cbn [default].
    now destruct (flat_map _ cs).
  - cbn [List.app]. now rewrite lookup_insert_ne.
Qed.

(** X2: where the shopping list is right, up to the rounding of the log: when
    no insert names a product whose name contains [Consumed], and every
    record of the log fits a [std::string], [generateShoppingList] scans the
    log without throwing and finds one entry for each name with a successful
    consume, and no other; the total of a name is the sum, from [0.0] and in
    the order of the log, of its consumed quantities as [stod] reads them
    back from the six decimals of the log. *)
Theorem shopping_list_totals (cs : list command) (fr : Refrigerator) :
  Forall plain cs ->
  run cs fridge = inr fr ->
  Forall (fun e => Str.size e < Str.size_max) (history fr) ->
  exists m,
    scan (history fr) ∅ = inr m /\
    forall n, m !! n =
      match consumed_of n (successes cs fridge) with
      | [] => None
      | qs => Some (fold_left PrimFloat.add (map read_back qs) 0%float)
      end.
Proof.
  intros Hplain Hrun Hsize. rewrite (history_run cs fridge fr Hrun) in *. cbn [history fridge List.app] in *.
  exists (totals (successes cs fridge) ∅). split.
  - apply scan_records; [apply successes_accepted|now apply successes_plain|exact Hsize].
  - intros n. now rewrite totals_lookup, lookup_empty.
Qed.

Lemma shopping_list_totals_witness :
  exists m,
    scan ["Inserted 4.000000 of juice"; "Consumed 2.000000 of juice"]%string ∅ = inr m /\
    forall n, m !! n =
      match consumed_of n [Consume "juice" 2] with
      | [] => None
      | qs => Some (fold_left PrimFloat.add (map read_back qs) 0%float)
      end.
Proof.
  apply (shopping_list_totals [Insert "juice" 4 "2025-03-01"; Consume "juice" 2]
           (mkRefrigerator {[ "juice"%string := mkProduct "juice" 2 "2025-03-01" ]}
              ["Inserted 4.000000 of juice"; "Consumed 2.000000 of juice"]%string)).
  - repeat constructor.
  - reflexivity.
  - repeat constructor.
Defined.

(** ** Stored quantities stay positive when the quantities given are finite *)

Lemma insertProduct_positive n q d fr :
  isfinite q = true -> all_positive fr -> all_positive (insertProduct n q d fr).1.
Proof.
  intros Hfin Hinv. unfold insertProduct.
  destruct (q <=? 0)%float eqn:Hq; [exact Hinv|].
  pose proof (Double.not_leb_ltb q (Double.finite_not_nan q Hfin) Hq) as Hpos.
  intros k p'. cbn [fst products logAction].
  destruct (decide (n = k)) as [<-|Hne].
  - destruct (products fr !! n) as [p|] eqn:Hn; rewrite lookup_insert_eq; intros [= <-].
    + cbn [addQuantity quantity]. apply Double.add_positive; [|exact Hpos]. now apply (Hinv n).
    + exact Hpos.
  - destruct (products fr !! n); rewrite lookup_insert_ne by exact Hne; apply Hinv.
Qed.

Lemma consumeProduct_positive n r fr :
  isfinite r = true -> all_positive fr -> all_positive (consumeProduct n r fr).1.
Proof.
  intros Hfin Hinv. unfold consumeProduct, getQuantity.
  destruct (r <=? 0)%float eqn:Hr; [exact Hinv|].
  pose proof (Double.not_leb_ltb r (Double.finite_not_nan r Hfin) Hr) as Hpos.
  destruct (products fr !! n) as [p|] eqn:Hn; [|exact Hinv].
  destruct (quantity p <? r)%float eqn:Hlt; [exact Hinv|].
  assert (Hle : (r <=? quantity p)%float = true).
  { apply Double.not_ltb_leb; [|now apply Double.finite_not_nan|exact Hlt].
    apply Double.positive_not_nan. now apply (Hinv n). }
  cbn [consumeQuantity quantity logAction products history].
  destruct (Double.sub_zero_or_positive (quantity p) r Hpos Hfin Hle) as [Hz|Hp].
  - rewrite Hz. intros k p'. cbn [fst products logAction]. rewrite delete_insert_eq.
    intros Hk. apply lookup_delete_Some in Hk as [_ Hk]. now apply (Hinv k).
  - destruct (quantity p - r =? 0)%float; intros k p'; cbn [fst products logAction].
    + rewrite delete_insert_eq.
      intros Hk. apply lookup_delete_Some in Hk as [_ Hk]. now apply (Hinv k).
    + destruct (decide (n = k)) as [<-|Hne].
      * rewrite lookup_insert_eq. now intros [= <-].
      * rewrite lookup_insert_ne by exact Hne. apply Hinv.
Qed.

Lemma dispatch_positive c fr :
  finite_quantity c = true -> all_positive fr -> all_positive (dispatch c fr).1.
Proof.
  intros Hfin Hinv. rewrite dispatch_state. destruct c as [n q d|n q| | |d|].
  - now apply insertProduct_positive.
  - now apply consumeProduct_positive.
  - now rewrite showStatus_state.
  - now rewrite showHistory_state.
  - intros k p Hk. apply checkExpirations_lookup in Hk as [Hk _]. now apply (Hinv k).
  - now rewrite generateShoppingList_state.
Qed.

(** X1: where the stored quantities do stay positive: as long as every quantity
    given to insert and consume is finite (neither a NaN nor an infinity),
    every stored quantity is [> 0] in every state the commands reach from
    the empty refrigerator. *)
Theorem stored_quantities_positive (cs : list command) (fr' : Refrigerator) :
  Forall (fun c => finite_quantity c = true) cs ->
  run cs fridge = inr fr' ->
  all_positive fr'.
Proof.
  assert (G : forall fr, all_positive fr -> Forall (fun c => finite_quantity c = true) cs ->
                         run cs fr = inr fr' -> all_positive fr').
  { induction cs as [|c cs IH]; intros fr Hinv Hall Hrun.
    - injection Hrun as <-. exact Hinv.
    - inversion Hall as [|c' l Hc Hcs]; subst. cbn [run] in Hrun.
      pose proof (dispatch_positive c fr Hc Hinv) as Hstep.
      destruct (dispatch c fr) as [fr1 [e|out]]; [discriminate|].
      now apply (IH fr1). }
  apply G. intros k p Hk. discriminate Hk.
Qed.

Lemma stored_quantities_positive_witness :
  all_positive (mkRefrigerator {[ "milk"%string := mkProduct "milk" 3 "2025-05-01" ]}
                  ["Inserted 5.000000 of milk"; "Consumed 2.000000 of milk"]%string).
Proof.
  apply (stored_quantities_positive [Insert "milk" 5 "2025-05-01"; Consume "milk" 2]).
  - repeat constructor.
  - vm_compute. reflexivity.
Defined.

(** * Further properties *)

(** ** Sequences of commands *)

(** What every command keeps, every sequence of commands keeps. *)
Lemma run_invariant (P : Refrigerator -> Prop) :
  (forall c fr, P fr -> P (dispatch c fr).1) ->
  forall cs fr fr', P fr -> run cs fr = inr fr' -> P fr'.
Proof.
  intros Hstep. induction cs as [|c cs IH]; intros fr fr' HP Hrun.
  - injection Hrun as <-. exact HP.
  - cbn [run] in Hrun. pose proof (Hstep c fr HP) as HP'.
    destruct (dispatch c fr) as [fr1 [e|out]]; [discriminate|]. now apply (IH fr1).
Qed.

Lemma products_insertProduct n q d fr :
  products (insertProduct n q d fr).1 =
  if (q <=? 0)%float then products fr
  else match products fr !! n with
       | Some p => <[n := addQuantity q p]> (products fr)
       | None => <[n := mkProduct n q d]> (products fr)
       end.
Proof. unfold insertProduct. now destruct (q <=? 0)%float. Qed.

Lemma products_consumeProduct n q fr :
  products (consumeProduct n q fr).1 =
  if (q <=? 0)%float then products fr
  else match products fr !! n with
       | None => products fr
       | Some p =>
           if (quantity p <? q)%float then products fr
           else if (quantity p - q =? 0)%float then delete n (products fr)
                else <[n := consumeQuantity q p]> (products fr)
       end.
Proof.
  unfold consumeProduct, getQuantity. destruct (q <=? 0)%float; [reflexivity|].
  destruct (products fr !! n) as [p|]; [|reflexivity].
  destruct (quantity p <? q)%float; [reflexivity|].
  cbn [consumeQuantity quantity logAction products].
  destruct (quantity p - q =? 0)%float; [|reflexivity].
  cbn [fst products]. apply delete_insert_eq.
Qed.

Lemma dispatch_keyed c fr : keyed_by_name fr -> keyed_by_name (dispatch c fr).1.
Proof.
  intros H. rewrite dispatch_state. destruct c as [n q d|n q| | |d|].
  - intros k p. rewrite products_insertProduct.
    destruct (q <=? 0)%float; [apply H|].
    destruct (products fr !! n) as [p0|] eqn:E; intros Hk;
      apply lookup_insert_Some in Hk as [[<- <-]|[_ Hk]]; try (now apply H); [|reflexivity].
    cbn. now apply (H n).
  - intros k p. rewrite products_consumeProduct.
    destruct (q <=? 0)%float; [apply H|].
    destruct (products fr !! n) as [p0|] eqn:E; [|apply H].
    destruct (quantity p0 <? q)%float; [apply H|].
    destruct (quantity p0 - q =? 0)%float; intros Hk.
    + apply lookup_delete_Some in Hk as [_ Hk]. now apply H.
    + apply lookup_insert_Some in Hk as [[<- <-]|[_ Hk]]; [|now apply H].
      cbn. now apply (H n).
  - now rewrite showStatus_state.
  - now rewrite showHistory_state.
  - intros k p Hk. apply checkExpirations_lookup in Hk as [Hk _]. now apply H.
  - now rewrite generateShoppingList_state.
Qed.

Lemma run_keyed cs fr : run cs fridge = inr fr -> keyed_by_name fr.
Proof.
  apply (run_invariant keyed_by_name dispatch_keyed). intros k p Hk. discriminate Hk.
Qed.

(** X3: in every state the commands reach from the empty refrigerator, each
    item is stored under its own name: the name [showStatus] and
    [checkExpirations] print is the key of the map. *)
Theorem names_are_keys (cs : list command) (fr : Refrigerator) :
  run cs fridge = inr fr ->
  forall k p, products fr !! k = Some p -> getName p = k.
Proof. intros Hrun. exact (run_keyed cs fr Hrun). Qed.

Lemma names_are_keys_witness :
  getName (mkProduct "milk" 5 "2025-05-01") = "milk"%string.
Proof.
  apply (names_are_keys [Insert "milk" 2 "2025-05-01"; Insert "milk" 3 "2025-05-10"]
           (mkRefrigerator {[ "milk"%string := mkProduct "milk" 5 "2025-05-01" ]}
              ["Inserted 2.000000 of milk"; "Inserted 3.000000 of milk"]%string)).
  - reflexivity.
  - reflexivity.
Defined.



(** X4: whatever their outcome, [insertProduct] and [consumeProduct] of the
    name [n] leave the item of every other name as it was. *)
Theorem other_items_untouched (n k : string) (q : float) (d : string) (fr : Refrigerator) :
  k <> n ->
  products (insertProduct n q d fr).1 !! k = products fr !! k /\
  products (consumeProduct n q fr).1 !! k = products fr !! k.
Proof.
  intros Hk. rewrite products_insertProduct, products_consumeProduct. split.
  - destruct (q <=? 0)%float; [reflexivity|].
    destruct (products fr !! n); now rewrite lookup_insert_ne.
  - destruct (q <=? 0)%float; [reflexivity|].
    destruct (products fr !! n) as [p|]; [|reflexivity].
    destruct (quantity p <? q)%float; [reflexivity|].
    destruct (quantity p - q =? 0)%float;
      [now rewrite lookup_delete_ne|now rewrite lookup_insert_ne].
Qed.

Lemma other_items_untouched_witness :
  let fr := (insertProduct "eggs" 12 "2025-04-01" fridge).1 in
  products (insertProduct "milk" 2 "2025-05-01" fr).1 !! "eggs"%string = products fr !! "eggs"%string /\
  products (consumeProduct "milk" 2 fr).1 !! "eggs"%string = products fr !! "eggs"%string.
Proof.
  apply (other_items_untouched "milk" "eggs" 2 "2025-05-01"). discriminate.
Defined.

(** X5: no operation but a successful insert adds an item: a name found in
    the ledger after a command was there before it, unless the command is
    an insert of that name with a quantity that is not [<= 0]. *)
Theorem only_insert_adds (c : command) (fr : Refrigerator) (k : string) :
  is_Some (products (dispatch c fr).1 !! k) ->
  is_Some (products fr !! k) \/
  exists q d, c = Insert k q d /\ (q <=? 0)%float = false.
Proof.
  rewrite dispatch_state. destruct c as [n q d|n q| | |d|].
  - rewrite products_insertProduct. destruct (q <=? 0)%float eqn:Hq; [auto|].
    destruct (decide (k = n)) as [->|Hne]; [eauto|].
    destruct (products fr !! n); rewrite lookup_insert_ne by congruence; auto.
  - rewrite products_consumeProduct. destruct (q <=? 0)%float; [auto|].
    destruct (products fr !! n) as [p|] eqn:E; [|auto].
    destruct (quantity p <? q)%float; [auto|].
    destruct (quantity p - q =? 0)%float.
    + intros [x Hx]. apply lookup_delete_Some in Hx as [_ Hx]. eauto.
    + destruct (decide (k = n)) as [->|Hne]; [rewrite E; eauto|].
      rewrite lookup_insert_ne by congruence. auto.
  - rewrite showStatus_state. auto.
  - rewrite showHistory_state. auto.
  - intros [x Hx]. apply checkExpirations_lookup in Hx as [Hx _]. eauto.
  - rewrite generateShoppingList_state. auto.
Qed.

Lemma only_insert_adds_witness :
  is_Some (products fridge !! "milk"%string) \/
  exists q d, Insert "milk" 2 "2025-05-01" = Insert "milk" q d /\ (q <=? 0)%float = false.
Proof.
  apply (only_insert_adds (Insert "milk" 2 "2025-05-01") fridge "milk").
  vm_compute. eauto.
Defined.

Lemma ltb_irrefl (x : float) : (x <? x)%float = false.
Proof.
  rewrite FloatAxioms.ltb_spec. unfold SFltb.
  destruct (Prim2SF x) as [[]|[]| |[] m e]; simpl; try reflexivity.
  all: rewrite Z.compare_refl.
  all: change (PosDef.Pos.compare_cont Eq m m) with (Pos.compare m m).
  all: now rewrite Pos.compare_refl.
Qed.

(** X6: inserting a finite quantity [> 0] under a name the ledger does not
    hold and consuming the same quantity gives the ledger back as it was;
    the log has the two records more. *)
Theorem insert_then_consume_all (n : string) (q : float) (d : string) (fr : Refrigerator) :
  products fr !! n = None ->
  (0 <? q)%float = true ->
  isfinite q = true ->
  run [Insert n q d; Consume n q] fr =
  inr {| products := products fr;
         history := history fr ++ [inserted q n; consumed q n] |}.
Proof.
  intros Hn Hq Hfin. cbn [run]. rewrite dispatch_Insert, dispatch_Consume. cbn [fst snd].
  f_equal.
  assert (Hle : (q <=? 0)%float = false) by now apply Double.ltb_leb_false.
  assert (E : insertProduct n q d fr =
              ({| products := <[n := mkProduct n q d]> (products fr);
                  history := history fr ++ [inserted q n] |}, [])).
  { unfold insertProduct. now rewrite Hle, Hn. }
  rewrite E. cbn [fst].
  unfold consumeProduct, getQuantity. cbn [products history].
  rewrite Hle, lookup_insert_eq. cbn [quantity consumeQuantity].
  pose proof (ltb_irrefl q) as Hqq.
  rewrite Hqq, (Double.sub_diag q Hfin). cbn [logAction products history fst].
  f_equal.
  - rewrite delete_insert_eq, delete_insert_eq. now apply delete_id.
  - now rewrite <- app_assoc.
Qed.

(** ** More on the expiration sweep *)

Lemma leb_trans (a b c : string) :
  String.leb a b = true -> String.leb b c = true -> String.leb a c = true.
Proof.
  intros H1 H2. apply Is_true_true. apply Is_true_true in H1, H2.
  exact (@transitivity _ String.le _ a b c H1 H2).
Qed.

Lemma products_checkExpirations_eq d fr fr' :
  (forall k p, products fr' !! k = Some p <->
               products fr !! k = Some p /\ String.leb (expirationDate p) d = false) ->
  products fr' = products (checkExpirations d fr).1.
Proof.
  intros H. apply map_eq. intros k. apply option_eq. intros p.
  rewrite H, checkExpirations_lookup, isExpired_leb. reflexivity.
Qed.

(** X7: two sweeps, in either order, leave the ledger of one sweep at the
    later of the two dates; in particular a second sweep at the same date
    removes nothing more. *)
Theorem sweeps_compose (d d' : string) (fr : Refrigerator) :
  String.leb d d' = true ->
  products (checkExpirations d' (checkExpirations d fr).1).1 = products (checkExpirations d' fr).1 /\
  products (checkExpirations d (checkExpirations d' fr).1).1 = products (checkExpirations d' fr).1.
Proof.
  intros Hle.
  assert (Hkeep : forall p, String.leb (expirationDate p) d' = false ->
                            String.leb (expirationDate p) d = false).
  { intros p H. destruct (String.leb (expirationDate p) d) eqn:E; [|reflexivity].
    rewrite (leb_trans _ _ _ E Hle) in H. discriminate. }
  split; apply products_checkExpirations_eq; intros k p;
    rewrite !checkExpirations_lookup, !isExpired_leb; unfold getExpirationDate.
  - split; [intros [[H1 _] H2]; auto|]. intros [H1 H2]. auto.
  - split; [intros [[H1 H2] _]; auto|]. intros [H1 H2]. auto.
Qed.

Lemma sweeps_compose_witness :
  let fr := (insertProduct "milk" 2 "2025-05-01" fridge).1 in
  products (checkExpirations "2025-06-01" (checkExpirations "2025-04-01" fr).1).1 =
    products (checkExpirations "2025-06-01" fr).1 /\
  products (checkExpirations "2025-04-01" (checkExpirations "2025-06-01" fr).1).1 =
    products (checkExpirations "2025-06-01" fr).1.
Proof.
  apply (sweeps_compose "2025-04-01" "2025-06-01"). reflexivity.
Defined.

Lemma sweep_output d items : forall m out found,
  let expired := List.filter (fun item : string * Product =>
                                isExpired d (getExpirationDate item.2)) items in
  (sweep d items (m, out, found)).1.2 = out ++ map (fun item => ExpiredLine (getName item.2)) expired /\
  (sweep d items (m, out, found)).2 = found || negb (bool_decide (expired = [])).
Proof.
  induction items as [|it items IH]; intros m out found; cbn [sweep List.filter].
  - cbn. now rewrite app_nil_r, orb_false_r.
  - destruct (isExpired d (getExpirationDate it.2)) eqn:E.
    + destruct (IH (delete it.1 m) (out ++ [ExpiredLine (getName it.2)]) true) as [H1 H2].
      rewrite H1, H2. cbn [map]. rewrite <- app_assoc. split; [reflexivity|].
      cbn. now rewrite orb_true_r.
    + apply IH.
Qed.

(** X8: [checkExpirations] writes its header, then one line for each item
    whose expiration date is [<=] the current date (the date of the day
    included), in the order of the visit, then the message that none was
    found exactly when there was none. *)
Theorem sweep_reports_expired (d : string) (fr : Refrigerator) :
  (checkExpirations d fr).2 =
  Text (nl +:+ "--- Checking Expired Products ---")
  :: map (fun item => ExpiredLine (getName item.2)) (expired_items d fr)
  ++ (if bool_decide (expired_items d fr = []) then [Text "No expired products found."] else []) /\
  forall k p, (k, p) ∈ expired_items d fr <->
              products fr !! k = Some p /\ String.leb (expirationDate p) d = true.
Proof.
  split.
  - unfold checkExpirations, expired_items.
    pose proof (sweep_output d (map_to_list (products fr)) (products fr)
                  [Text (nl +:+ "--- Checking Expired Products ---")] false) as [H1 H2].
    destruct (sweep d (map_to_list (products fr)) _) as [[m out] found].
    cbn [fst snd] in *. subst out found. cbn [orb].
    destruct (bool_decide _); cbn [negb]; [reflexivity|now rewrite app_nil_r].
  - intros k p. unfold expired_items.
    rewrite list_elem_of_In, List.filter_In, <- list_elem_of_In, elem_of_map_to_list.
    cbn [snd]. now rewrite isExpired_leb.
Qed.

(** ** Reading a quantity back from the log *)

Lemma iter_pos_iter {A} (f : A -> A) (p : positive) : forall x,
  SpecFloat.iter_pos f p x = Pos.iter f x p.
Proof.
  induction p as [p IH|p IH|]; intros x; cbn [SpecFloat.iter_pos Pos.iter].
  - rewrite !IH. now rewrite <- !Pos.iter_swap.
  - now rewrite !IH.
  - reflexivity.
Qed.

Lemma digits2_shift (m : positive) (p : positive) :
  digits2_pos (Pos.iter xO m p) = (digits2_pos m + p)%positive.
Proof.
  induction p as [|p IH] using Pos.peano_ind.
  - cbn. lia.
  - rewrite Pos.iter_succ. cbn [digits2_pos]. rewrite IH. lia.
Qed.

Lemma shr_exact (p : positive) : forall m,
  SpecFloat.iter_pos shr_1 p (Build_shr_record (Z.pos (Pos.iter xO m p)) false false) =
  Build_shr_record (Z.pos m) false false.
Proof.
  intros m. rewrite iter_pos_iter. revert m.
  induction p as [|p IH] using Pos.peano_ind; intros m.
  - reflexivity.
  - rewrite Pos.iter_succ_r, Pos.iter_succ. cbn [shr_1 orb]. apply IH.
Qed.

(** Rounding a double written with a larger mantissa and a smaller
    exponent gives the double back. *)
Lemma binary_round_aux_exact (m : positive) (e k : Z) :
  valid_binary (S754_finite false m e) = true -> 0 <= k ->
  binary_round_aux prec emax false (Z.pos m * 2 ^ k) (e - k) loc_Exact = S754_finite false m e.
Proof.
  intros V Hk.
  assert (Hcanon : fexp prec emax (Z.pos (digits2_pos m) + e) = e /\ e <= emax - prec).
  { revert V. unfold SpecFloat.valid_binary, bounded, canonical_mantissa.
    intros [H1 H2]%andb_prop. apply Z.eqb_eq in H1. apply Z.leb_le in H2. auto. }
  destruct Hcanon as [Hc He].
  assert (Hlast : forall e0, e0 = e ->
            (let '(mrs'', e'') := shr_fexp prec emax (Z.pos m) e0 loc_Exact in
             match shr_m mrs'' with
             | 0 => S754_zero false
             | Z.pos m0 => if e'' <=? emax - prec then S754_finite false m0 e'' else S754_infinity false
             | Z.neg _ => S754_nan
             end) = S754_finite false m e).
  { intros e0 ->. unfold shr_fexp. cbn [Zdigits2]. rewrite Hc, Z.sub_diag. cbn [shr shr_record_of_loc shr_m].
    apply Z.leb_le in He. now rewrite He. }
  unfold binary_round_aux.
  destruct k as [|p|p]; [| |lia].
  - rewrite Z.mul_1_r, Z.sub_0_r. unfold shr_fexp at 1. cbn [Zdigits2].
    rewrite Hc, Z.sub_diag. cbn [shr shr_record_of_loc shr_m loc_of_shr_record round_nearest_even].
    now apply Hlast.
  - replace (Z.pos m * 2 ^ Z.pos p) with (Z.pos (Pos.iter xO m p)).
    2:{ change (Pos.iter xO m p) with (shift_pos p m). rewrite shift_pos_correct.
        change (Z.pow_pos 2 p) with (2 ^ Z.pos p). lia. }
    unfold shr_fexp at 1. cbn [Zdigits2]. rewrite digits2_shift.
    replace (Z.pos (digits2_pos m + p) + (e - Z.pos p)) with (Z.pos (digits2_pos m) + e) by lia.
    rewrite Hc. replace (e - (e - Z.pos p)) with (Z.pos p) by lia.
    cbn [shr shr_record_of_loc]. rewrite shr_exact.
    cbn [shr_m loc_of_shr_record round_nearest_even].
    apply Hlast. lia.
Qed.

Lemma stod_fixed6 (n : Z) :
  0 <= n -> Stod.stod (Fmt.fixed6 n) = Stod.nearest false n 1000000.
Proof.
  intros Hn. destruct (fixed6_shape n) as (c & x & t & E & Hc & Hx).
  destruct (mantissa_fixed6 n Hn) as (d & Hd & Hm).
  rewrite E in *. rewrite (stod_numeral c x t Hc Hx), Hm.
  replace (d =? 0) with false by (symmetry; apply Z.eqb_neq; lia).
  unfold Stod.exponent, Stod.scaled. cbn [Z.leb Z.compare].
  now rewrite Z.pow_0_r, Z.mul_1_r.
Qed.

(** The millionths of a double that is a whole number of millionths. *)
Lemma millionths_exact (m : positive) (e : Z) :
  -1074 <= e ->
  (0 <=? e) || ((Z.pos m * 1000000) mod 2 ^ (- e) =? 0) = true ->
  Fmt.millionths m e * 2 ^ 1074 = Z.pos m * 2 ^ (e + 1074) * 1000000.
Proof.
  intros He H. unfold Fmt.millionths. destruct (0 <=? e) eqn:E.
  - apply Z.leb_le in E. rewrite Z.pow_add_r by lia. lia.
  - apply Z.leb_gt in E. cbn [orb] in H. apply Z.eqb_eq in H.
    assert (Hp : 0 < 2 ^ (- e)) by (apply Z.pow_pos_nonneg; lia).
    unfold Fmt.round_half_even. rewrite H, Z.mul_0_r.
    replace (0 ?= 2 ^ (- e)) with Lt by (symmetry; now apply Z.compare_lt_iff).
    pose proof (Z.div_mod (Z.pos m * 1000000) (2 ^ (- e)) ltac:(lia)) as Hdm.
    rewrite H, Z.add_0_r in Hdm.
    replace (2 ^ 1074) with (2 ^ (- e) * 2 ^ (e + 1074)).
    2:{ rewrite <- Z.pow_add_r by lia. f_equal. lia. }
    remember (Z.pos m * 1000000 / 2 ^ (- e)) as Q.
    transitivity (Z.pos m * 1000000 * 2 ^ (e + 1074)); [rewrite Hdm; ring|ring].
Qed.

Lemma stod_whole (q : float) :
  (0 <? q)%float = true ->
  whole_millionths q = true ->
  Stod.stod (Fmt.to_string q) = inr q.
Proof.
  intros Hq Hw. pose proof (Prim2SF_valid q) as V. pose proof (SF2Prim_Prim2SF q) as Hback.
  unfold whole_millionths, Fmt.to_string in *.
  destruct (Double.positive_cases q Hq) as [E|(m & e & E)]; rewrite E in *; [discriminate|].
  cbn [Fmt.minus]. rewrite StrFacts.app_nil_l.
  pose proof (millionths_in_range false m e V) as [H0 H1].
  pose proof (Double.valid_finite false m e V) as (He & _ & _).
  change (-1074 <= e) in He.
  pose proof (millionths_exact m e He Hw) as Hex.
  rewrite (stod_fixed6 _ H0). unfold Stod.nearest.
  assert (Hpow : 0 < 2 ^ (e + 1074)) by (apply Z.pow_pos_nonneg; lia).
  destruct (Fmt.millionths m e =? 0) eqn:Ez.
  { apply Z.eqb_eq in Ez. rewrite Ez in Hex.
    pose proof (Z.mul_pos_pos (Z.pos m) _ ltac:(lia) Hpow). lia. }
  fold overflow_threshold.
  replace (overflow_threshold * 1000000 <=? Fmt.millionths m e) with false
    by (symmetry; apply Z.leb_gt; lia).
  rewrite Hex, Z.div_mul, Z_mod_mult by lia. cbn [Z.eqb negb]. rewrite andb_false_r.
  replace (-1074) with (e - (e + 1074)) by lia.
  rewrite binary_round_aux_exact by (try exact V; lia).
  now rewrite Hback.
Qed.

(** X12: a quantity [> 0] that is a whole number of millionths (a whole
    number, a half, a quarter, ...) is read back from the log as it was
    written: [stod] of its [to_string] is the quantity itself. *)
Theorem whole_millionths_read_back (q : float) :
  (0 <? q)%float = true ->
  whole_millionths q = true ->
  Stod.stod (Fmt.to_string q) = inr q /\ read_back q = q.
Proof.
  intros Hq Hw. pose proof (stod_whole q Hq Hw) as H. split; [exact H|].
  unfold read_back. now rewrite H.
Qed.

Lemma whole_millionths_read_back_witness :
  Stod.stod (Fmt.to_string 2.5) = inr 2.5%float /\ read_back 2.5 = 2.5%float.
Proof.
  apply (whole_millionths_read_back 2.5); reflexivity.
Defined.

(** ** The shopping list of any log the program writes *)

Lemma prefix_length p : forall s, String.prefix p s = true -> (String.length p <= String.length s)%nat.
Proof.
  induction p as [|a p IH]; intros s H; [cbn; lia|].
  destruct s as [|b s]; [discriminate|]. cbn [String.prefix] in H.
  destruct (ascii_dec a b); [|discriminate]. apply IH in H. cbn. lia.
Qed.

Lemma index_bound p s : forall i,
  String.index 0 p s = Some i -> (i + String.length p <= String.length s)%nat.
Proof.
  induction s as [|b s IH]; intros i H.
  - cbn in H. destruct p; [|discriminate]. injection H as <-. cbn. lia.
  - cbn [String.index] in H. destruct (String.prefix p (String b s)) eqn:E.
    + injection H as <-. apply prefix_length in E. lia.
    + destruct (String.index 0 p s) as [j|]; [|discriminate]. injection H as <-.
      specialize (IH j eq_refl). cbn. lia.
Qed.

Lemma index_of_after_head head ts n :
  every (fun c => negb (Stod.code c =? Stod.code " ")) head = true ->
  ts <> "" -> every quiet ts = true ->
  String.index 0 " of " (head +:+ String " " (ts +:+ " of " +:+ n)) =
  Some (String.length head + S (String.length ts))%nat.
Proof.
  intros Hhead Hne Hq. rewrite index_skip by exact Hhead.
  destruct ts as [|c ts']; [congruence|].
  cbn [every] in Hq. apply andb_prop in Hq as [Hc Hq'].
  assert (Hspace : every (fun c => negb (Stod.code c =? Stod.code " ")) (String c ts') = true).
  { apply (every_impl quiet); [|cbn [every]; now rewrite Hc, Hq'].
    intros c0. unfold quiet. intros [[H _]%andb_prop _]%andb_prop. exact H. }
  cbn [String.index]. rewrite StrFacts.app_cons.
  assert (Hp : String.prefix " of " (String " " (String c (ts' +:+ " of " +:+ n))) = false).
  { cbn [String.prefix]. destruct (ascii_dec " " " "); [|congruence].
    destruct (ascii_dec "o" c) as [<-|]; [|reflexivity].
    vm_compute in Hc. discriminate Hc. }
  rewrite Hp, <- StrFacts.app_cons, (index_skip " " "of " (String c ts') _ Hspace), index_here.
  cbn [option_map]. f_equal. lia.
Qed.

(** A record made of a word, a quantity that passed the check and a name:
    unless it is skipped, it adds what [stod] reads back of the quantity to
    the total of the name. *)
Lemma tally_head head m q n :
  every (fun c => negb (Stod.code c =? Stod.code " ")) head = true ->
  (q <=? 0)%float = false ->
  let entry := head +:+ String " " (Fmt.to_string q +:+ " of " +:+ n) in
  Str.size entry < Str.size_max ->
  tally m entry =
  if Str.find entry "Consumed" =? Str.npos then inr m
  else inr (<[n := (default 0%float (m !! n) + read_back q)%float]> m).
Proof.
  intros Hhead Hq entry Hsize. unfold tally.
  destruct (Str.find entry "Consumed" =? Str.npos); [reflexivity|].
  unfold Str.find, entry in *. set (ts := Fmt.to_string q) in *.
  set (L := String.length head).
  assert (Hlen : Str.size (head +:+ String " " (ts +:+ " of " +:+ n)) =
                 Z.of_nat L + 5 + Z.of_nat (String.length ts) + Z.of_nat (String.length n)).
  { unfold Str.size, L. rewrite StrFacts.length_app. cbn [String.length].
    rewrite !StrFacts.length_app. cbn [String.length]. lia. }
  rewrite Hlen in Hsize. unfold Str.size_max in Hsize.
  assert (E1 : String.index 0 " " (head +:+ String " " (ts +:+ " of " +:+ n)) = Some L).
  { rewrite index_skip by exact Hhead.
    change (String " " (ts +:+ " of " +:+ n)) with (" " +:+ (ts +:+ " of " +:+ n)).
    rewrite index_here. cbn [option_map]. f_equal. unfold L. lia. }
  rewrite E1, (index_of_after_head head ts n Hhead (to_string_nonempty q) (every_quiet_to_string q)).
  fold L.
  assert (E0 : Str.wrap (Z.of_nat L + 1) = Z.of_nat (L + 1)).
  { unfold Str.wrap, Str.size_max. rewrite Z.mod_small; lia. }
  assert (E2 : Str.wrap (Z.of_nat (L + S (String.length ts)) - Z.of_nat (L + 1)) =
               Z.of_nat (String.length ts)).
  { unfold Str.wrap, Str.size_max. rewrite Z.mod_small; lia. }
  assert (E3 : Str.wrap (Z.of_nat (L + S (String.length ts)) + 4) =
               Z.of_nat (L + 5 + String.length ts)).
  { unfold Str.wrap, Str.size_max. rewrite Z.mod_small; lia. }
  rewrite E0, E2, E3. unfold Str.substr. rewrite Hlen.
  replace (_ <? Z.of_nat (L + 1)) with false by (symmetry; apply Z.ltb_ge; lia).
  rewrite Z.min_l by lia. rewrite !Nat2Z.id.
  replace (head +:+ String " " (ts +:+ " of " +:+ n))
    with ((head +:+ " ") +:+ (ts +:+ " of " +:+ n)) at 1
    by now rewrite StrFacts.app_assoc.
  replace (L + 1)%nat with (String.length (head +:+ " "))
    by (rewrite StrFacts.length_app; reflexivity).
  rewrite substring_skip, substring_prefix.
  unfold ts at 1. rewrite (stod_to_string q Hq).
  replace (_ <? Z.of_nat (L + 5 + String.length ts)) with false by (symmetry; apply Z.ltb_ge; lia).
  rewrite Z.min_r by (unfold Str.npos, Str.size_max; lia).
  replace (head +:+ String " " (ts +:+ " of " +:+ n))
    with ((head +:+ " " +:+ ts +:+ " of ") +:+ n)
    by now rewrite !StrFacts.app_assoc.
  replace (L + 5 + String.length ts)%nat
    with (String.length (head +:+ " " +:+ ts +:+ " of "))
    by (rewrite !StrFacts.length_app; cbn [String.length]; unfold L; lia).
  replace (Z.to_nat _) with (String.length n)
    by (rewrite !StrFacts.length_app; cbn [String.length]; unfold L; lia).
  now rewrite substring_skip, substring_all.
Qed.

Lemma find_Consumed_inserted q n :
  Str.size (inserted q n) < Str.size_max ->
  (Str.find (inserted q n) "Consumed" =? Str.npos) =
  match String.index 0 "Consumed" n with Some _ => false | None => true end.
Proof.
  intros Hsize. unfold Str.find, inserted in *.
  replace ("Inserted " +:+ Fmt.to_string q +:+ " of " +:+ n)
    with (("Inserted " +:+ Fmt.to_string q +:+ " of ") +:+ n) in *
    by now rewrite !StrFacts.app_assoc.
  rewrite index_skip.
  - destruct (String.index 0 "Consumed" n) as [j|] eqn:E; cbn [option_map]; [|reflexivity].
    apply index_bound in E. cbn [String.length] in E.
    unfold Str.size in Hsize. rewrite StrFacts.length_app in Hsize.
    apply Z.eqb_neq. unfold Str.npos, Str.size_max in *. lia.
  - rewrite !every_append. apply andb_true_intro. split; [reflexivity|].
    apply andb_true_intro. split; [|reflexivity].
    apply (every_impl quiet); [|apply every_quiet_to_string].
    intros c. unfold quiet. intros [[_ H]%andb_prop _]%andb_prop. exact H.
Qed.

Lemma scan_record c m :
  accepted_quantity c ->
  Forall (fun e => Str.size e < Str.size_max) (record c) ->
  scan (record c) m = inr (totals_parsed [c] m).
Proof.
  intros Hq Hsize. destruct c as [n q d|n q| | |d|]; cbn in Hq; try contradiction.
  - inversion Hsize as [|e l He _]; subst. cbn [record scan totals_parsed fold_left parsed].
    pose proof (tally_head "Inserted" m q n eq_refl Hq He) as Ht.
    change ("Inserted" +:+ String " " (Fmt.to_string q +:+ " of " +:+ n))
      with (inserted q n) in Ht.
    rewrite Ht, (find_Consumed_inserted q n He).
    now destruct (String.index 0 "Consumed" n).
  - inversion Hsize as [|e l He _]; subst. cbn [record scan totals_parsed fold_left parsed].
    pose proof (tally_head "Consumed" m q n eq_refl Hq He) as Ht.
    change ("Consumed" +:+ String " " (Fmt.to_string q +:+ " of " +:+ n))
      with (consumed q n) in Ht.
    rewrite Ht. unfold Str.find, consumed.
    change ("Consumed " +:+ Fmt.to_string q +:+ " of " +:+ n)
      with ("Consumed" +:+ (" " +:+ Fmt.to_string q +:+ " of " +:+ n)).
    now rewrite index_here.
Qed.

Lemma scan_app l1 : forall l2 m,
  scan (l1 ++ l2) m = match scan l1 m with inl e => inl e | inr m' => scan l2 m' end.
Proof.
  induction l1 as [|e l1 IH]; intros l2 m; [reflexivity|].
  cbn [scan app]. destruct (tally m e); [reflexivity|apply IH].
Qed.









Lemma succeeds_accepted c fr : succeeds c fr = true -> accepted_quantity c.
Proof.
  destruct c; cbn; try discriminate.
  - now intros ?%negb_true_iff.
  - intros [H _]%andb_prop. now apply negb_true_iff in H.
Qed.

Lemma run_total cs : forall fr0 m0,
  scan (history fr0) ∅ = inr m0 ->
  Forall (fun e => Str.size e < Str.size_max) (flat_map record (successes cs fr0)) ->
  exists fr, run cs fr0 = inr fr.
Proof.
  induction cs as [|c cs IH]; intros fr0 m0 Hscan Hsize; [now exists fr0|].
  cbn [run successes] in *. rewrite flat_map_app in Hsize.
  apply Forall_app in Hsize as [Hc Hsize].
  pose proof (history_dispatch c fr0) as Hh.
  assert (Hout : exists out, (dispatch c fr0).2 = inr out).
  { destruct c as [n q d|n q| | |d|]; unfold dispatch.
    - destruct (insertProduct n q d fr0). eauto.
    - destruct (consumeProduct n q fr0). eauto.
    - destruct (showStatus fr0). eauto.
    - destruct (showHistory fr0). eauto.
    - destruct (checkExpirations d fr0). eauto.
    - unfold generateShoppingList. rewrite Hscan. destruct (decide (m0 = ∅)); eauto. }
  destruct Hout as [out Hout].
  destruct (dispatch c fr0) as [fr1 r]. cbn [fst snd] in *. subst r.
  assert (Hscan1 : exists m1, scan (history fr1) ∅ = inr m1).
  { rewrite Hh, scan_app, Hscan. destruct (succeeds c fr0) eqn:E.
    - cbn [flat_map] in Hc. rewrite app_nil_r in Hc.
      rewrite (scan_record c m0 (succeeds_accepted c fr0 E) Hc). eauto.
    - cbn. eauto. }
  destruct Hscan1 as [m1 Hscan1]. exact (IH fr1 m1 Hscan1 Hsize).
Qed.

(** X10: the command loop never ends by an exception. Whatever the
    commands, as long as the records they log fit a [std::string], every
    [generateShoppingList] among them parses the whole log; the log at the
    end is the records of the successful inserts and consumes, in order. *)
Theorem main_never_throws (cs : list command) :
  Forall (fun e => Str.size e < Str.size_max) (flat_map record (successes cs fridge)) ->
  exists fr, run cs fridge = inr fr /\ history fr = flat_map record (successes cs fridge).
Proof.
  intros Hsize. destruct (run_total cs fridge ∅ eq_refl Hsize) as [fr Hrun].
  exists fr. split; [exact Hrun|]. now rewrite (history_run cs fridge fr Hrun).
Qed.

Lemma main_never_throws_witness :
  exists fr,
    run [Insert "Consumed" 4 "2025-03-01"; ShoppingList; Consume "Consumed" 5; Consume "Consumed" 1;
         ShoppingList] fridge = inr fr /\
    history fr = ["Inserted 4.000000 of Consumed"; "Consumed 1.000000 of Consumed"]%string.
Proof.
  apply (main_never_throws
           [Insert "Consumed" 4 "2025-03-01"; ShoppingList; Consume "Consumed" 5;
            Consume "Consumed" 1; ShoppingList]).
  match goal with
  | |- Forall ?P ?l => let l' := eval vm_compute in l in change (Forall P l')
  end.
  repeat (apply List.Forall_cons; [vm_compute; reflexivity|]).
  apply List.Forall_nil.
Defined.

(** ** The shopping list of plain names and whole quantities *)







(** ** An item that left the ledger *)



(** ** A quantity that is not a number *)

Lemma is_nan_spec (x : float) : is_nan x = true <-> Prim2SF x = S754_nan.
Proof.
  unfold is_nan. rewrite FloatAxioms.eqb_spec. unfold SFeqb.
  destruct (Prim2SF x) as [[]|[]| |[] m e]; simpl; try (split; [discriminate|congruence]);
    try (split; reflexivity).
  all: rewrite Z.compare_refl.
  all: change (PosDef.Pos.compare_cont Eq m m) with (Pos.compare m m).
  all: rewrite Pos.compare_refl; split; discriminate.
Qed.

Lemma nan_checks (x q : float) :
  is_nan x = true ->
  (x <? q)%float = false /\ is_nan (x + q) = true /\ is_nan (x - q) = true /\
  (x - q =? 0)%float = false.
Proof.
  intros H. apply is_nan_spec in H.
  assert (Ha : Prim2SF (x + q) = S754_nan).
  { rewrite FloatAxioms.add_spec, H. reflexivity. }
  assert (Hs : Prim2SF (x - q) = S754_nan).
  { rewrite FloatAxioms.sub_spec, H. reflexivity. }
  repeat split.
  - rewrite FloatAxioms.ltb_spec, H. reflexivity.
  - now apply is_nan_spec.
  - now apply is_nan_spec.
  - rewrite FloatAxioms.eqb_spec, Hs. reflexivity.
Qed.

(** X15: a stored quantity that is a NaN stays one. An insert and a consume
    of that name, whatever the quantity given, leave the item in the ledger
    with a NaN quantity, and the consume is never refused for lack of
    stock: only the sweep removes such an item. *)
Theorem nan_item_stays (n : string) (p : Product) (q : float) (d : string) (fr : Refrigerator) :
  products fr !! n = Some p ->
  is_nan (quantity p) = true ->
  (exists p', products (insertProduct n q d fr).1 !! n = Some p' /\ is_nan (quantity p') = true) /\
  (exists p', products (consumeProduct n q fr).1 !! n = Some p' /\ is_nan (quantity p') = true) /\
  (consumeProduct n q fr).2 <> [not_enough].
Proof.
  intros Hn Hnan. destruct (nan_checks (quantity p) q Hnan) as (Hlt & Hadd & Hsub & Hz).
  rewrite products_insertProduct, products_consumeProduct, Hn, Hlt, Hz.
  split; [|split].
  - destruct (q <=? 0)%float; [eauto|]. rewrite lookup_insert_eq. eauto.
  - destruct (q <=? 0)%float; [eauto|]. rewrite lookup_insert_eq. eauto.
  - unfold consumeProduct, getQuantity. rewrite Hn, Hlt.
    destruct (q <=? 0)%float; [discriminate|].
    cbn [consumeQuantity quantity]. rewrite Hz. discriminate.
Qed.

Lemma nan_item_stays_witness :
  let fr := (insertProduct "milk" nan "2025-05-01" fridge).1 in
  (exists p', products (insertProduct "milk" 1 "2025-06-01" fr).1 !! "milk"%string = Some p' /\
              is_nan (quantity p') = true) /\
  (exists p', products (consumeProduct "milk" 1 fr).1 !! "milk"%string = Some p' /\
              is_nan (quantity p') = true) /\
  (consumeProduct "milk" 1 fr).2 <> [not_enough].
Proof.
  apply (nan_item_stays "milk" (mkProduct "milk" nan "2025-05-01") 1 "2025-06-01"
           (insertProduct "milk" nan "2025-05-01" fridge).1); reflexivity.
Defined.

Lemma insert_then_consume_all_witness :
  run [Insert "eggs" 12 "2025-04-01"; Consume "eggs" 12] fridge =
  inr {| products := ∅;
         history := ["Inserted 12.000000 of eggs"; "Consumed 12.000000 of eggs"]%string |}.
Proof.
  apply (insert_then_consume_all "eggs" 12 "2025-04-01" fridge); reflexivity.
Defined.

(** ** What the history shows *)

(** X16: after any commands from the empty refrigerator, [showHistory]
    writes its header and then one line for each insert or consume that
    succeeded, oldest first, with the text of its record; it writes that no
    action was recorded exactly when none succeeded. *)
Theorem history_shows_successes (cs : list command) (fr : Refrigerator) :
  run cs fridge = inr fr ->
  (showHistory fr).2 =
  Text (nl +:+ "--- History of Actions ---")
  :: match successes cs fridge with
     | [] => [Text "No actions recorded yet."]
     | evs => map HistoryLine (flat_map record evs)
     end.
Proof.
  intros Hrun. unfold showHistory. rewrite (history_run cs fridge fr Hrun).
  cbn [history fridge List.app].
  pose proof (successes_accepted cs fridge) as Hacc.
  destruct (successes cs fridge) as [|c evs]; [reflexivity|].
  inversion Hacc as [|? ? Hc _]; subst.
  destruct c; cbn in Hc; try contradiction; reflexivity.
Qed.

Lemma history_shows_successes_witness :
  (showHistory (mkRefrigerator ∅ ["Inserted 12.000000 of eggs"; "Consumed 12.000000 of eggs"]%string)).2 =
  [Text (nl +:+ "--- History of Actions ---");
   HistoryLine "Inserted 12.000000 of eggs"; HistoryLine "Consumed 12.000000 of eggs"].
Proof.
  apply (history_shows_successes
           [Insert "eggs" 12 "2025-04-01"; Consume "eggs" 0; Consume "eggs" 12; Consume "eggs" 1]).
  reflexivity.
Defined.
